(** * jetemail-node: the validation and dispatch pipeline

    A shallow embedding of [src/types.ts], [src/client.ts] and
    [src/emails.ts].  TypeScript types are erased when the library runs, and
    the code guards its inputs with run-time checks ([!options.from],
    [Array.isArray], [typeof ... === 'string'], [?.], [||]), so the values
    that reach it are modelled as untyped JavaScript data.  A [throw] (or,
    in an [async] method, the rejection of the returned promise) is an
    abrupt completion; the calls of [fetch] are recorded in a trace. *)

From Stdlib Require Import String Ascii List Arith Bool Lia.
From Stdlib Require Import DecimalString.
Import ListNotations.
Local Open Scope string_scope.
Set Warnings "-register-all".

(** ** JavaScript values *)

(** A number is observed by this program only through ToBoolean (the
    [!x] and [||] tests) and through ToString (template literals and the
    [Error] constructor); it is represented by these two observations. *)
Record JsNumber : Type := mkNumber {
  number_truthy : bool;  (* false for +0, -0 and NaN *)
  number_text : string   (* Number::toString *)
}.

(** The data the program handles: the values of JSON, and [undefined].
    An array is the list of its slots, as many as its [length]: [Some x]
    holds the element [x], [None] is an empty slot of a sparse array (as
    in [[a, , b]] or [new Array(5)]). An object is its table of own
    properties; the first binding of a name is the property. *)
Inductive JsValue : Type :=
| JUndefined
| JNull
| JBool (b : bool)
| JNumber (n : JsNumber)
| JString (s : string)
| JArray (items : list (option JsValue))
| JObject (fields : list (string * JsValue)).

(** ToBoolean. *)
Definition truthy (v : JsValue) : bool :=
  match v with
  | JUndefined | JNull => false
  | JBool b => b
  | JNumber n => number_truthy n
  | JString s => negb (String.eqb s EmptyString)
  | JArray _ | JObject _ => true
  end.

(** [v === undefined || v === null], the test of [?.] and [??]. *)
Definition nullish (v : JsValue) : bool :=
  match v with
  | JUndefined | JNull => true
  | _ => false
  end.

(** [typeof v === 'string'] *)
Definition typeof_string (v : JsValue) : bool :=
  match v with
  | JString _ => true
  | _ => false
  end.

(** [Array.isArray(v)] *)
Definition Array_isArray (v : JsValue) : bool :=
  match v with
  | JArray _ => true
  | _ => false
  end.

(** The slots of an array; used only behind [Array.isArray]. *)
Definition Array_items (v : JsValue) : list (option JsValue) :=
  match v with
  | JArray items => items
  | _ => []
  end.

(** [v.length] of an array: empty slots count. *)
Definition Array_length (v : JsValue) : nat := length (Array_items v).

(** The slots of an array without empty slots, as an array literal
    [[a, b, c]] makes it. *)
Definition dense (items : list JsValue) : list (option JsValue) := map Some items.

(** [P] holds of the element of a slot, if the slot has one. *)
Definition on_present {A : Type} (P : A -> Prop) (slot : option A) : Prop :=
  match slot with
  | Some x => P x
  | None => True
  end.

Fixpoint lookup (name : string) (fields : list (string * JsValue)) : option JsValue :=
  match fields with
  | [] => None
  | (k, v) :: rest => if String.eqb k name then Some v else lookup name rest
  end.

Definition hasOwn (name : string) (fields : list (string * JsValue)) : bool :=
  match lookup name fields with
  | Some _ => true
  | None => false
  end.

(** ** Errors and completions *)

(** The run-time faults of the engine that this program can provoke. *)
Inductive Fault : Type :=
| ReadOfNullish (base : JsValue) (name : string)  (* [null.from] *)
| NotAFunction (callee : string)                  (* [(42).replace(...)] *)
| NoPrimitiveValue.                               (* ToString of an object that hides [toString] *)

(** Thrown values.  [Error] is [new Error(message)], [TypeError] is raised
    by the engine or by [fetch], [JetEmailError] is the class of
    [src/types.ts] with its fields [message], [statusCode] and [response]
    ([JUndefined] when the third argument is not passed). *)
Inductive JsError : Type :=
| Error (message : string)
| TypeError (message : string)
| JetEmailError (message : string) (statusCode : nat) (response : JsValue).

(** [error.message] *)
Definition error_message (e : JsError) : string :=
  match e with
  | Error m | TypeError m | JetEmailError m _ _ => m
  end.

(** [error instanceof Error]: the three classes all derive from [Error]. *)
Definition instanceof_Error (e : JsError) : bool :=
  match e with
  | Error _ | TypeError _ | JetEmailError _ _ _ => true
  end.

(** [error instanceof JetEmailError] *)
Definition instanceof_JetEmailError (e : JsError) : bool :=
  match e with
  | JetEmailError _ _ _ => true
  | _ => false
  end.

(** [e.statusCode] *)
Definition statusCode_of (e : JsError) : option nat :=
  match e with
  | JetEmailError _ code _ => Some code
  | _ => None
  end.

(** The outcome of synchronous code. *)
Inductive Completion (A : Type) : Type :=
| Return (a : A)
| Throw (e : JsError).
Arguments Return {A} a.
Arguments Throw {A} e.

Definition bindC {A B : Type} (m : Completion A) (k : A -> Completion B) : Completion B :=
  match m with
  | Return a => k a
  | Throw e => Throw e
  end.

(** ** The transport *)

(** The argument of [fetch(url, init)]. *)
Record FetchRequest : Type := mkFetchRequest {
  url : string;
  method : string;
  headers : list (string * string);
  body : option string   (* [None]: [JSON.stringify] gave [undefined] *)
}.

(** What the program reads of a [Response]: [status], and the outcome of
    [response.json()], [None] when the body is not JSON text and the
    promise rejects. *)
Record Response : Type := mkResponse {
  status : nat;
  json : option JsValue
}.

(** [response.ok]: the status is in the range 200-299. *)
Definition ok (r : Response) : bool :=
  ((200 <=? status r) && (status r <=? 299))%nat.

Inductive FetchOutcome : Type :=
| Rejects (message : string)   (* network failure: [fetch] rejects with a [TypeError] *)
| Responds (r : Response).

(** The host the library runs on: the engine's wording of its faults,
    [JSON.stringify] and [fetch]. *)
Class Runtime : Type := mkRuntime {
  faultMessage : Fault -> string;
  JSON_stringify : JsValue -> option string;
  fetch : FetchRequest -> FetchOutcome
}.

(** An [async] method: it runs against the trace of the [fetch] calls made
    so far and settles with a completion ([Return]: the promise is
    fulfilled, [Throw]: it is rejected). *)
Definition Trace : Type := list FetchRequest.
Definition Async (A : Type) : Type := Trace -> Completion A * Trace.

Definition resolve {A : Type} (a : A) : Async A := fun w => (Return a, w).
Definition reject {A : Type} (e : JsError) : Async A := fun w => (Throw e, w).
Definition lift {A : Type} (c : Completion A) : Async A := fun w => (c, w).

Definition bindA {A B : Type} (m : Async A) (k : A -> Async B) : Async B :=
  fun w =>
    match m w with
    | (Return a, w') => k a w'
    | (Throw e, w') => (Throw e, w')
    end.

Declare Scope js_scope.
Delimit Scope js_scope with js.
Notation "x <- m ;; k" := (bindC m (fun x => k))
  (at level 61, m at next level, right associativity) : js_scope.
Notation "x <~ m ;; k" := (bindA m (fun x => k))
  (at level 61, m at next level, right associativity) : js_scope.
Local Open Scope js_scope.

(** [await fetch(url, init)]: one call of the transport, recorded. *)
Definition await_fetch `{Runtime} (req : FetchRequest) : Async Response :=
  fun w =>
    match fetch req with
    | Rejects m => (Throw (TypeError m), (w ++ [req])%list)
    | Responds r => (Return r, (w ++ [req])%list)
    end.

(** [v.name] on a value that is neither [undefined] nor [null], for the
    names this program reads ([from], [to], [subject], [html], [text],
    [message], [error], [apiKey], [baseUrl]): none of them is defined on a
    built-in prototype, so only an object's own table can answer, and a
    boxed primitive or an array answers [undefined]. *)
Definition property (v : JsValue) (name : string) : JsValue :=
  match v with
  | JObject fields =>
      match lookup name fields with
      | Some x => x
      | None => JUndefined
      end
  | _ => JUndefined
  end.

(** [v.name]: reading from [undefined] or [null] is a [TypeError]. *)
Definition getProp `{Runtime} (v : JsValue) (name : string) : Completion JsValue :=
  if nullish v
  then Throw (TypeError (faultMessage (ReadOfNullish v name)))
  else Return (property v name).

(** ToString, as applied by template literals and by [Error(message)].
    An array is joined with commas, [undefined] and [null] elements and
    empty slots giving the empty string; a plain object gives
    [[object Object]] unless an own property hides
    [Object.prototype.toString] (data is never callable). *)
Fixpoint ToString `{Runtime} (v : JsValue) : Completion string :=
  match v with
  | JUndefined => Return "undefined"
  | JNull => Return "null"
  | JBool true => Return "true"
  | JBool false => Return "false"
  | JNumber n => Return (number_text n)
  | JString s => Return s
  | JArray items =>
      (fix join (l : list (option JsValue)) : Completion string :=
         match l with
         | [] => Return EmptyString
         | slot :: rest =>
             sx <- match slot with
                   | None => Return EmptyString
                   | Some x => if nullish x then Return EmptyString else ToString x
                   end ;;
             match rest with
             | [] => Return sx
             | _ :: _ => srest <- join rest ;; Return (sx ++ "," ++ srest)
             end
         end) items
  | JObject fields =>
      if hasOwn "toString" fields
      then Throw (TypeError (faultMessage NoPrimitiveValue))
      else Return "[object Object]"
  end.

(** The decimal text of an index or of a status code. *)
Definition decimal (n : nat) : string := NilZero.string_of_uint (Nat.to_uint n).

(** The double quote of the messages. *)
Definition dq : string := String (ascii_of_nat 34) EmptyString.

(** [items.forEach(callback)]: the callback receives each element that is
    present and its zero-based index; an empty slot is passed over, its
    index still counting; the first callback that throws ends the loop. *)
Fixpoint forEach_from {A : Type} (callback : A -> nat -> Completion unit)
    (items : list (option A)) (index : nat) : Completion unit :=
  match items with
  | [] => Return tt
  | None :: rest => forEach_from callback rest (S index)
  | Some x :: rest => _ <- callback x index ;; forEach_from callback rest (S index)
  end.

Definition forEach {A : Type} (callback : A -> nat -> Completion unit)
    (items : list (option A)) : Completion unit :=
  forEach_from callback items 0.

(** ** src/types.ts *)

(** [new JetEmailError(message, statusCode, response)]: [super(message)]
    stores ToString of a message that is not [undefined]. *)
Definition new_JetEmailError `{Runtime} (message : JsValue) (statusCode : nat)
    (response : JsValue) : Completion JsError :=
  text <- match message with
          | JUndefined => Return EmptyString
          | _ => ToString message
          end ;;
  Return (JetEmailError text statusCode response).

(** ** src/emails.ts *)

(** The literals of the four field checks, shared by [Emails] and [Batch]. *)
Definition from_required : string := "JetEmail: " ++ dq ++ "from" ++ dq ++ " is required".
Definition to_required : string := "JetEmail: " ++ dq ++ "to" ++ dq ++ " is required".
Definition subject_required : string := "JetEmail: " ++ dq ++ "subject" ++ dq ++ " is required".
Definition content_required : string :=
  "JetEmail: at least one of " ++ dq ++ "html" ++ dq ++ " or " ++ dq ++ "text" ++ dq ++ " is required".

Module Emails.

(** [new Emails(request)] *)
Record t : Type := mk {
  request : string -> JsValue -> Async JsValue
}.

Definition validateEmailOptions `{Runtime} (options : JsValue) : Completion unit :=
  from <- getProp options "from" ;;
  if negb (truthy from) then Throw (Error from_required) else
  to <- getProp options "to" ;;
  if negb (truthy to) then Throw (Error to_required) else
  subject <- getProp options "subject" ;;
  if negb (truthy subject) then Throw (Error subject_required) else
  html <- getProp options "html" ;;
  no_content <- (if negb (truthy html)
                 then text <- getProp options "text" ;; Return (negb (truthy text))
                 else Return false) ;;
  if no_content then Throw (Error content_required) else
  Return tt.

Definition send `{Runtime} (this : t) (options : JsValue) : Async JsValue :=
  _ <~ lift (validateEmailOptions options) ;;
  request this "/email" options.

End Emails.

Module Batch.

(** [new Batch(request)] *)
Record t : Type := mk {
  request : string -> JsValue -> Async JsValue
}.

Definition validateEmailOptions `{Runtime} (options : JsValue) : Completion unit :=
  from <- getProp options "from" ;;
  if negb (truthy from) then Throw (Error from_required) else
  to <- getProp options "to" ;;
  if negb (truthy to) then Throw (Error to_required) else
  subject <- getProp options "subject" ;;
  if negb (truthy subject) then Throw (Error subject_required) else
  html <- getProp options "html" ;;
  no_content <- (if negb (truthy html)
                 then text <- getProp options "text" ;; Return (negb (truthy text))
                 else Return false) ;;
  if no_content then Throw (Error content_required) else
  Return tt.

Definition array_required : string :=
  "JetEmail: emails array is required and must not be empty".
Definition maximum_size : string :=
  "JetEmail: maximum batch size is 100 emails".

(** The message of the [catch] clause around the validation of one item. *)
Definition invalid_at (index : nat) (message : string) : string :=
  "JetEmail: email at index " ++ decimal index ++ " is invalid - " ++ message.

(** The callback of [emails.forEach]. *)
Definition validate_item `{Runtime} (email : JsValue) (index : nat) : Completion unit :=
  match validateEmailOptions email with
  | Return u => Return u
  | Throw error =>
      let message :=
        if instanceof_Error error then error_message error else "Unknown error" in
      Throw (Error (invalid_at index message))
  end.

Definition send `{Runtime} (this : t) (emails : JsValue) : Async JsValue :=
  if negb (Array_isArray emails) || (Array_length emails =? 0)%nat
  then reject (Error array_required) else
  if (100 <? Array_length emails)%nat
  then reject (Error maximum_size) else
  _ <~ lift (forEach validate_item (Array_items emails)) ;;
  request this "/email-batch" (JObject [("emails", emails)]).

End Batch.

(** ** src/client.ts *)

Module JetEmail.

Definition DEFAULT_BASE_URL : string := "https://api.jetemail.com".

Definition apiKey_required : string := "JetEmail: apiKey is required".

(** The two private fields; the sub-resources [email] and [batch] are
    built from them below. *)
Record t : Type := mk {
  apiKey : JsValue;
  baseUrl : string
}.

(** [s.replace(/\/$/, '')]: without the [m] flag [$] matches at the end of
    the input only, and [replace] with a regular expression that has no
    [g] flag replaces one match. *)
Fixpoint replace_trailing_slash (s : string) : string :=
  match s with
  | EmptyString => EmptyString
  | String c EmptyString => if Ascii.eqb c "/" then EmptyString else s
  | String c rest => String c (replace_trailing_slash rest)
  end.

(** The request handed to [fetch]. *)
Definition fetch_init `{Runtime} (this : t) (endpoint : string) (authorization : string)
    (body : JsValue) : FetchRequest :=
  {| url := baseUrl this ++ endpoint;
     method := "POST";
     headers := [("Content-Type", "application/json");
                 ("Authorization", authorization)];
     body := JSON_stringify body |}.

Definition request `{Runtime} (this : t) (endpoint : string) (body : JsValue) :
    Async JsValue :=
  credential <~ lift (ToString (apiKey this)) ;;
  response <~ await_fetch (fetch_init this endpoint ("Bearer " ++ credential) body) ;;
  match json response with
  | None =>
      error <~ lift (new_JetEmailError
                       (JString ("Request failed with status " ++ decimal (status response)))
                       (status response) JUndefined) ;;
      reject error
  | Some data =>
      if negb (ok response) then
        let errorResponse := data in
        message <~ lift (m <- getProp errorResponse "message" ;;
                         if truthy m then Return m else
                         e <- getProp errorResponse "error" ;;
                         if truthy e then Return e else
                         Return (JString "Unknown error")) ;;
        error <~ lift (new_JetEmailError message (status response) errorResponse) ;;
        reject error
      else resolve data
  end.

(** [this.email = new Emails(boundRequest)] *)
Definition email `{Runtime} (this : t) : Emails.t := Emails.mk (request this).

(** [this.batch = new Batch(boundRequest)] *)
Definition batch `{Runtime} (this : t) : Batch.t := Batch.mk (request this).

(** [new JetEmail(configOrApiKey)]; a constructor is synchronous. *)
Definition constructor `{Runtime} (configOrApiKey : JsValue) : Completion t :=
  let config :=
    if typeof_string configOrApiKey
    then JObject [("apiKey", configOrApiKey)]
    else configOrApiKey in
  key <- getProp config "apiKey" ;;
  if negb (truthy key) then Throw (Error apiKey_required) else
  override <- getProp config "baseUrl" ;;
  replaced <- match override with
              | JUndefined | JNull => Return None
              | JString s => Return (Some (replace_trailing_slash s))
              | _ => Throw (TypeError (faultMessage (NotAFunction "config.baseUrl?.replace")))
              end ;;
  Return {| apiKey := key;
            baseUrl := match replaced with
                       | Some s => s
                       | None => DEFAULT_BASE_URL
                       end |}.

End JetEmail.

(** [errorResponse.message || errorResponse.error || 'Unknown error'] on a
    decoded body that is neither [undefined] nor [null]. *)
Definition best_message (data : JsValue) : JsValue :=
  if truthy (property data "message") then property data "message"
  else if truthy (property data "error") then property data "error"
  else JString "Unknown error".

(** ** A host for the examples *)

(** V8's wording of the faults. *)
Definition v8_faultMessage (f : Fault) : string :=
  match f with
  | ReadOfNullish base name =>
      "Cannot read properties of "
      ++ (match base with JNull => "null" | _ => "undefined" end)
      ++ " (reading '" ++ name ++ "')"
  | NotAFunction callee => callee ++ " is not a function"
  | NoPrimitiveValue => "Cannot convert object to primitive value"
  end.

(** A mock transport that answers every request with [reply]; the text of
    the serialized body plays no part in the examples. *)
Definition mock (reply : FetchOutcome) : Runtime :=
  {| faultMessage := v8_faultMessage;
     JSON_stringify := fun _ => Some "{}";
     fetch := fun _ => reply |}.

Definition client : JetEmail.t :=
  {| JetEmail.apiKey := JString "key"; JetEmail.baseUrl := JetEmail.DEFAULT_BASE_URL |}.

(** [{from: 'A <a@x.com>', to: 'b@y.com', subject: 'Hi', text: 'hello'}] *)
Definition hello : JsValue :=
  JObject [("from", JString "A <a@x.com>"); ("to", JString "b@y.com");
           ("subject", JString "Hi"); ("text", JString "hello")].

(** The same request without its sender. *)
Definition anonymous : JsValue :=
  JObject [("to", JString "b@y.com"); ("subject", JString "Hi"); ("text", JString "hello")].

(** [{id: 'abc', response: 'queued'}] *)
Definition queued : JsValue :=
  JObject [("id", JString "abc"); ("response", JString "queued")].

(** Requests that lack the recipient, the subject, and a body. *)
Definition no_recipient : JsValue :=
  JObject [("from", JString "A <a@x.com>"); ("subject", JString "Hi"); ("text", JString "hello")].
Definition no_subject : JsValue :=
  JObject [("from", JString "A <a@x.com>"); ("to", JString "b@y.com"); ("text", JString "hello")].
Definition no_content : JsValue :=
  JObject [("from", JString "A <a@x.com>"); ("to", JString "b@y.com"); ("subject", JString "Hi")].

(** [html] is the empty string and there is no [text]. *)
Definition blank_html : JsValue :=
  JObject [("from", JString "A <a@x.com>"); ("to", JString "b@y.com");
           ("subject", JString "Hi"); ("html", JString EmptyString)].

(** The sender is the empty string. *)
Definition blank_from : JsValue :=
  JObject [("from", JString EmptyString); ("to", JString "b@y.com");
           ("subject", JString "Hi"); ("text", JString "hello")].

(** The recipients are an empty list. *)
Definition no_recipients : JsValue :=
  JObject [("from", JString "A <a@x.com>"); ("to", JArray []);
           ("subject", JString "Hi"); ("text", JString "hello")].

(** A configuration record whose base address ends with a slash, and one
    whose base address is a number. *)
Definition regional : JsValue :=
  JObject [("apiKey", JString "key"); ("baseUrl", JString "https://eu.example.com/")].
Definition misconfigured : JsValue :=
  JObject [("apiKey", JString "key");
           ("baseUrl", JNumber {| number_truthy := true; number_text := "8080" |})].

(** An error body whose [message] is an object that hides [toString]:
    [{message: {toString: 'x'}}]. *)
Definition unprintable : JsValue :=
  JObject [("message", JObject [("toString", JString "x")])].

(** A transport that is down, and one that has queued the message. *)
Definition offline : Runtime := mock (Rejects "fetch failed").
Definition online : Runtime := mock (Responds {| status := 200; json := Some queued |}).

(** The message of a rejection. *)
Definition rejection_message {A : Type} (r : Completion A * Trace) : option string :=
  match fst r with
  | Throw e => Some (error_message e)
  | Return _ => None
  end.

(** ** Reading properties *)

Lemma getProp_present `{Runtime} (v : JsValue) (name : string) :
  nullish v = false -> getProp v name = Return (property v name).
Proof. intros Hv. unfold getProp. now rewrite Hv. Qed.

Lemma getProp_nullish `{Runtime} (v : JsValue) (name : string) :
  nullish v = true ->
  getProp v name = Throw (TypeError (faultMessage (ReadOfNullish v name))).
Proof. intros Hv. unfold getProp. now rewrite Hv. Qed.

Lemma truthy_string (s : string) : truthy (JString s) = false <-> s = EmptyString.
Proof.
  simpl. destruct (String.eqb_spec s EmptyString) as [E | E]; simpl; split;
    intros; congruence.
Qed.

(** ** The four field checks *)

(** Rewrites with what is known of the fields of a request. *)
Ltac rewrite_fields :=
  repeat match goal with
         | E : truthy _ = _ |- _ => rewrite E; clear E
         | E : property _ _ = _ |- _ => rewrite E; clear E
         end.

(** The checks in closed form, on a value that is neither [undefined] nor
    [null]. *)
Lemma Emails_validate_checks `{Runtime} (options : JsValue) :
  nullish options = false ->
  Emails.validateEmailOptions options =
  if negb (truthy (property options "from")) then Throw (Error from_required)
  else if negb (truthy (property options "to")) then Throw (Error to_required)
  else if negb (truthy (property options "subject")) then Throw (Error subject_required)
  else if negb (truthy (property options "html")) && negb (truthy (property options "text"))
       then Throw (Error content_required)
  else Return tt.
Proof.
  intros Hv. unfold Emails.validateEmailOptions.
  rewrite !(getProp_present options) by assumption. unfold bindC.
  destruct (truthy (property options "from")); [ | reflexivity ].
  destruct (truthy (property options "to")); [ | reflexivity ].
  destruct (truthy (property options "subject")); [ | reflexivity ].
  destruct (truthy (property options "html")); [ reflexivity | ].
  now destruct (truthy (property options "text")).
Qed.

(** The two classes carry the same validation. *)
Lemma Batch_validate_Emails `{Runtime} (options : JsValue) :
  Batch.validateEmailOptions options = Emails.validateEmailOptions options.
Proof. reflexivity. Qed.

Lemma validate_nullish `{Runtime} (options : JsValue) :
  nullish options = true ->
  Emails.validateEmailOptions options =
  Throw (TypeError (faultMessage (ReadOfNullish options "from"))).
Proof.
  intros Hv. unfold Emails.validateEmailOptions.
  now rewrite (getProp_nullish options "from") by assumption.
Qed.

(** Whatever validation throws, it is not the API error. *)
Lemma validate_throws_plain `{Runtime} (options : JsValue) (e : JsError) :
  Emails.validateEmailOptions options = Throw e ->
  (exists m, e = Error m) \/ (exists m, e = TypeError m).
Proof.
  destruct (nullish options) eqn:Hv.
  - rewrite validate_nullish by assumption. intros [= <-]. right. eauto.
  - rewrite Emails_validate_checks by assumption.
    repeat match goal with
           | |- context [if ?b then _ else _] => destruct b
           end; intros [= <-]; left; eauto.
Qed.

Lemma required_messages_distinct :
  NoDup [from_required; to_required; subject_required; content_required].
Proof.
  repeat constructor; simpl; intuition discriminate.
Qed.

Lemma send_after_validation `{Runtime} (this : Emails.t) (options : JsValue) (w : Trace) :
  Emails.send this options w =
  match Emails.validateEmailOptions options with
  | Return _ => Emails.request this "/email" options w
  | Throw e => (Throw e, w)
  end.
Proof.
  unfold Emails.send, bindA, lift.
  now destruct (Emails.validateEmailOptions options).
Qed.

(** ** Single send *)

(** C1. Single send validates before it calls the transport, in the order
    sender, recipient, subject, content: the first check that fails decides
    the rejection, each check has a message of its own, the trace of
    [fetch] calls is left as it was, and only a request that passes all
    four checks reaches the dispatch routine. *)
Theorem Emails_send_validation_order `{Runtime} (this : Emails.t) (options : JsValue)
    (w : Trace) :
  nullish options = false ->
  let present name := truthy (property options name) in
  (present "from" = false ->
   Emails.send this options w = (Throw (Error from_required), w)) /\
  (present "from" = true -> present "to" = false ->
   Emails.send this options w = (Throw (Error to_required), w)) /\
  (present "from" = true -> present "to" = true -> present "subject" = false ->
   Emails.send this options w = (Throw (Error subject_required), w)) /\
  (present "from" = true -> present "to" = true -> present "subject" = true ->
   present "html" = false -> present "text" = false ->
   Emails.send this options w = (Throw (Error content_required), w)) /\
  (present "from" = true -> present "to" = true -> present "subject" = true ->
   present "html" || present "text" = true ->
   Emails.send this options w = Emails.request this "/email" options w) /\
  NoDup [from_required; to_required; subject_required; content_required].
Proof.
  intros Hv present. subst present. cbv beta.
  rewrite send_after_validation, Emails_validate_checks by assumption.
  repeat split; try apply required_messages_distinct; intros;
    rewrite_fields; try reflexivity.
  destruct (truthy (property options "html")), (truthy (property options "text"));
    simpl in *; congruence.
Qed.

Lemma Emails_send_validation_order_witness :
  let this := @JetEmail.email offline client in
  @Emails.send offline this anonymous [] = (Throw (Error from_required), []) /\
  @Emails.send offline this no_recipient [] = (Throw (Error to_required), []) /\
  @Emails.send offline this no_subject [] = (Throw (Error subject_required), []) /\
  @Emails.send offline this no_content [] = (Throw (Error content_required), []) /\
  @Emails.send offline this hello [] = @JetEmail.request offline client "/email" hello [].
Proof.
  intros this.
  pose proof (@Emails_send_validation_order offline this anonymous [] eq_refl) as H1.
  pose proof (@Emails_send_validation_order offline this no_recipient [] eq_refl) as H2.
  pose proof (@Emails_send_validation_order offline this no_subject [] eq_refl) as H3.
  pose proof (@Emails_send_validation_order offline this no_content [] eq_refl) as H4.
  pose proof (@Emails_send_validation_order offline this hello [] eq_refl) as H5.
  cbv zeta in H1, H2, H3, H4, H5.
  split; [ apply H1; reflexivity | ].
  split; [ apply H2; reflexivity | ].
  split; [ apply H3; reflexivity | ].
  split; [ apply H4; reflexivity | ].
  apply H5; reflexivity.
Defined.

(** ** Batch send *)

Lemma dense_app (pre : list JsValue) (item : JsValue) (post : list JsValue) :
  dense (pre ++ item :: post) = (dense pre ++ Some item :: dense post)%list.
Proof. unfold dense. now rewrite map_app. Qed.

Lemma dense_length (items : list JsValue) : length (dense items) = length items.
Proof. apply length_map. Qed.

Lemma dense_all (P : JsValue -> Prop) (items : list JsValue) :
  Forall P items -> Forall (on_present P) (dense items).
Proof. induction 1; simpl; constructor; auto. Qed.

Lemma forEach_from_passes {A : Type} (callback : A -> nat -> Completion unit)
    (items : list (option A)) :
  Forall (on_present (fun x => forall i, callback x i = Return tt)) items ->
  forall index, forEach_from callback items index = Return tt.
Proof.
  induction 1 as [ | slot rest Hslot _ IH ]; intros index; simpl.
  - reflexivity.
  - destruct slot as [ x | ]; simpl in Hslot.
    + rewrite Hslot. simpl. apply IH.
    + apply IH.
Qed.

(** The loop ends at the first element whose callback throws: the
    elements after it are not visited. *)
Lemma forEach_from_first_throw {A : Type} (callback : A -> nat -> Completion unit)
    (pre : list (option A)) (item : A) (post : list (option A)) (e : JsError) :
  Forall (on_present (fun x => forall i, callback x i = Return tt)) pre ->
  forall index,
  callback item (index + length pre) = Throw e ->
  forEach_from callback (pre ++ Some item :: post) index = Throw e.
Proof.
  induction 1 as [ | slot rest Hslot _ IH ]; intros index Hitem; simpl in *.
  - rewrite Nat.add_0_r in Hitem. now rewrite Hitem.
  - destruct slot as [ x | ]; simpl in Hslot.
    + rewrite Hslot. simpl. apply IH. now rewrite Nat.add_succ_comm.
    + apply IH. now rewrite Nat.add_succ_comm.
Qed.

Lemma validate_item_passes `{Runtime} (email : JsValue) :
  Batch.validateEmailOptions email = Return tt ->
  forall index, Batch.validate_item email index = Return tt.
Proof. intros Hv index. unfold Batch.validate_item. now rewrite Hv. Qed.

Lemma validate_item_wraps `{Runtime} (email : JsValue) (e : JsError) (index : nat) :
  Batch.validateEmailOptions email = Throw e ->
  Batch.validate_item email index =
  Throw (Error (Batch.invalid_at index (error_message e))).
Proof.
  intros Hv. unfold Batch.validate_item. rewrite Hv. now destruct e.
Qed.

Lemma valid_slots_pass `{Runtime} (items : list (option JsValue)) :
  Forall (on_present (fun x => Batch.validateEmailOptions x = Return tt)) items ->
  Forall (on_present (fun x => forall i, Batch.validate_item x i = Return tt)) items.
Proof.
  intros Hall. eapply Forall_impl; [ | exact Hall ].
  intros [ x | ]; simpl; [ apply validate_item_passes | trivial ].
Qed.

(** Past the two guards, the loop runs and then the dispatch routine. *)
Lemma Batch_send_sized `{Runtime} (this : Batch.t) (items : list (option JsValue))
    (w : Trace) :
  1 <= length items <= 100 ->
  Batch.send this (JArray items) w =
  match forEach Batch.validate_item items with
  | Return _ => Batch.request this "/email-batch" (JObject [("emails", JArray items)]) w
  | Throw e => (Throw e, w)
  end.
Proof.
  intros [Hlo Hhi]. unfold Batch.send, Array_length. simpl.
  destruct (Nat.eqb_spec (length items) 0) as [E | _]; [ lia | ].
  destruct (Nat.ltb_spec 100 (length items)) as [E | _]; [ lia | ].
  unfold bindA, lift.
  now destruct (forEach Batch.validate_item items).
Qed.

Lemma Batch_send_first_throw `{Runtime} (this : Batch.t) (pre : list (option JsValue))
    (item : JsValue) (post : list (option JsValue)) (e : JsError) (w : Trace) :
  length (pre ++ Some item :: post) <= 100 ->
  Forall (on_present (fun x => Batch.validateEmailOptions x = Return tt)) pre ->
  Batch.validateEmailOptions item = Throw e ->
  Batch.send this (JArray (pre ++ Some item :: post)) w =
  (Throw (Error (Batch.invalid_at (length pre) (error_message e))), w).
Proof.
  intros Hlen Hpre Hitem.
  rewrite Batch_send_sized
    by (split; [ rewrite length_app; simpl; lia | assumption ]).
  unfold forEach.
  rewrite (forEach_from_first_throw Batch.validate_item pre item post
             (Error (Batch.invalid_at (length pre) (error_message e)))).
  - reflexivity.
  - now apply valid_slots_pass.
  - simpl. now apply validate_item_wraps.
Qed.

(** The same in an array without empty slots. *)
Lemma Batch_send_first_throw_dense `{Runtime} (this : Batch.t) (pre : list JsValue)
    (item : JsValue) (post : list JsValue) (e : JsError) (w : Trace) :
  length (pre ++ item :: post) <= 100 ->
  Forall (fun x => Batch.validateEmailOptions x = Return tt) pre ->
  Batch.validateEmailOptions item = Throw e ->
  Batch.send this (JArray (dense (pre ++ item :: post))) w =
  (Throw (Error (Batch.invalid_at (length pre) (error_message e))), w).
Proof.
  intros Hlen Hpre Hitem. rewrite dense_app, <- (dense_length pre).
  apply Batch_send_first_throw.
  - now rewrite <- dense_app, dense_length.
  - now apply dense_all.
  - assumption.
Qed.

Lemma Batch_send_all_pass `{Runtime} (this : Batch.t) (items : list (option JsValue))
    (w : Trace) :
  1 <= length items <= 100 ->
  Forall (on_present (fun x => Batch.validateEmailOptions x = Return tt)) items ->
  Batch.send this (JArray items) w =
  Batch.request this "/email-batch" (JObject [("emails", JArray items)]) w.
Proof.
  intros Hlen Hall. rewrite Batch_send_sized by assumption. unfold forEach.
  rewrite forEach_from_passes; [ reflexivity | ]. now apply valid_slots_pass.
Qed.

Lemma Batch_send_all_pass_dense `{Runtime} (this : Batch.t) (items : list JsValue)
    (w : Trace) :
  1 <= length items <= 100 ->
  Forall (fun x => Batch.validateEmailOptions x = Return tt) items ->
  Batch.send this (JArray (dense items)) w =
  Batch.request this "/email-batch" (JObject [("emails", JArray (dense items))]) w.
Proof.
  intros Hlen Hall. apply Batch_send_all_pass.
  - now rewrite dense_length.
  - now apply dense_all.
Qed.

Lemma Batch_send_not_array `{Runtime} (this : Batch.t) (emails : JsValue) (w : Trace) :
  Array_isArray emails = false ->
  Batch.send this emails w = (Throw (Error Batch.array_required), w).
Proof. intros Ha. unfold Batch.send. now rewrite Ha. Qed.

Lemma Batch_send_empty `{Runtime} (this : Batch.t) (w : Trace) :
  Batch.send this (JArray []) w = (Throw (Error Batch.array_required), w).
Proof. reflexivity. Qed.

Lemma Batch_send_oversized `{Runtime} (this : Batch.t) (items : list (option JsValue))
    (w : Trace) :
  100 < length items ->
  Batch.send this (JArray items) w = (Throw (Error Batch.maximum_size), w).
Proof.
  intros Hlen. unfold Batch.send, Array_length. simpl.
  destruct (Nat.eqb_spec (length items) 0) as [E | _]; [ lia | ].
  destruct (Nat.ltb_spec 100 (length items)) as [_ | E]; [ reflexivity | lia ].
Qed.

(** A batch of 101 items, the first one without a sender: the size guard
    answers, and its message names no index. And a sparse array of three
    slots, the second one empty: the loop passes over the empty slot,
    which would read as [undefined], and the batch is sent. *)
Lemma Batch_send_index_not_reported :
  let this := @JetEmail.batch offline client in
  let emails := JArray (dense (anonymous :: repeat hello 100)) in
  (@Batch.validateEmailOptions offline anonymous = Throw (Error from_required) /\
   Forall (fun x => @Batch.validateEmailOptions offline x = Return tt) (repeat hello 100) /\
   @Batch.send offline this emails [] =
     (Throw (Error "JetEmail: maximum batch size is 100 emails"), []) /\
   @Batch.send offline this emails [] <>
     (Throw (Error ("JetEmail: email at index " ++ decimal 0 ++ " is invalid - "
                    ++ from_required)), [])) /\
  (exists e, @Batch.validateEmailOptions online JUndefined = Throw e) /\
  fst (@Batch.send online (@JetEmail.batch online client)
         (JArray [Some hello; None; Some hello]) []) = Return queued.
Proof.
  intros this emails. split; [ | split; [ eexists; reflexivity | reflexivity ] ].
  split; [ reflexivity | ]. split.
  - apply Forall_forall. intros x Hx. apply repeat_spec in Hx. now subst x.
  - split; [ reflexivity | ]. vm_compute. discriminate.
Qed.

(** C3, amended. In a batch of at most 100 items without empty slots, the
    first item that fails validation ends the call: the rejection names
    the zero-based index of that item and carries the item's own
    validation message after it, whatever the items that follow are, and
    the trace of [fetch] calls is left as it was. *)
Theorem Batch_send_first_invalid `{Runtime} (this : Batch.t) (pre : list JsValue)
    (item : JsValue) (post : list JsValue) (e : JsError) (w : Trace) :
  length (pre ++ item :: post) <= 100 ->
  Forall (fun x => Batch.validateEmailOptions x = Return tt) pre ->
  Batch.validateEmailOptions item = Throw e ->
  Batch.send this (JArray (dense (pre ++ item :: post))) w =
  (Throw (Error ("JetEmail: email at index " ++ decimal (length pre)
                 ++ " is invalid - " ++ error_message e)), w).
Proof.
  intros Hlen Hpre Hitem.
  assert (Hsize : 1 <= length (dense (pre ++ item :: post)) <= 100)
    by (rewrite dense_length; split; [ rewrite length_app; simpl; lia | assumption ]).
  rewrite Batch_send_sized by assumption. unfold forEach. rewrite dense_app.
  rewrite (forEach_from_first_throw Batch.validate_item (dense pre) item (dense post)
             (Error (Batch.invalid_at (length pre) (error_message e)))).
  - reflexivity.
  - apply valid_slots_pass. now apply dense_all.
  - simpl. rewrite dense_length. unfold Batch.validate_item. rewrite Hitem.
    now destruct e.
Qed.

Lemma Batch_send_first_invalid_witness :
  @Batch.send offline (@JetEmail.batch offline client)
    (JArray (dense ([hello; hello] ++ no_subject :: [anonymous; hello]))) [] =
  (Throw (Error ("JetEmail: email at index " ++ decimal 2
                 ++ " is invalid - " ++ subject_required)), []).
Proof.
  apply (@Batch_send_first_invalid offline (@JetEmail.batch offline client)
           [hello; hello] no_subject [anonymous; hello] (Error subject_required) []).
  - apply Nat.leb_le. reflexivity.
  - repeat constructor.
  - reflexivity.
Defined.

(** A value that is not an array and the empty array are turned away by
    one guard, with one message. *)
Lemma Batch_send_one_message_for_two :
  let this := @JetEmail.batch offline client in
  rejection_message (@Batch.send offline this (JString "a@x.com") []) =
    Some "JetEmail: emails array is required and must not be empty" /\
  rejection_message (@Batch.send offline this (JArray []) []) =
    Some "JetEmail: emails array is required and must not be empty" /\
  ~ (rejection_message (@Batch.send offline this (JString "a@x.com") []) <>
     rejection_message (@Batch.send offline this (JArray []) [])).
Proof.
  intros this. split; [ reflexivity | ]. split; [ reflexivity | ].
  intros Hneq. apply Hneq. reflexivity.
Qed.

(** C4, amended. Batch send turns its input away before it calls the
    transport when the input is not an array or is the empty array (these
    two with one shared message), and when it has more than 100 items
    (with a second message, different from the first); a list of exactly
    100 valid items passes the guards and reaches the dispatch routine. *)
Theorem Batch_send_guards `{Runtime} (this : Batch.t) (emails : JsValue) (w : Trace) :
  (Array_isArray emails = false ->
   Batch.send this emails w =
   (Throw (Error "JetEmail: emails array is required and must not be empty"), w)) /\
  (emails = JArray [] ->
   Batch.send this emails w =
   (Throw (Error "JetEmail: emails array is required and must not be empty"), w)) /\
  (Array_isArray emails = true -> 100 < Array_length emails ->
   Batch.send this emails w =
   (Throw (Error "JetEmail: maximum batch size is 100 emails"), w)) /\
  "JetEmail: emails array is required and must not be empty" <>
  "JetEmail: maximum batch size is 100 emails" /\
  (Array_isArray emails = true -> Array_length emails = 100 ->
   Forall (on_present (fun x => Batch.validateEmailOptions x = Return tt))
     (Array_items emails) ->
   Batch.send this emails w =
   Batch.request this "/email-batch" (JObject [("emails", emails)]) w).
Proof.
  split; [ apply Batch_send_not_array | ].
  split; [ intros ->; apply Batch_send_empty | ].
  split.
  { destruct emails; try discriminate. intros _ Hlen. now apply Batch_send_oversized. }
  split; [ discriminate | ].
  destruct emails; try discriminate. unfold Array_length. simpl.
  intros _ Hlen Hall. apply Batch_send_all_pass; [ lia | assumption ].
Qed.

Lemma Batch_send_guards_witness :
  let this := @JetEmail.batch offline client in
  @Batch.send offline this JUndefined [] =
    (Throw (Error "JetEmail: emails array is required and must not be empty"), []) /\
  @Batch.send offline this (JArray []) [] =
    (Throw (Error "JetEmail: emails array is required and must not be empty"), []) /\
  @Batch.send offline this (JArray (dense (repeat hello 101))) [] =
    (Throw (Error "JetEmail: maximum batch size is 100 emails"), []) /\
  @Batch.send offline this (JArray (dense (repeat hello 100))) [] =
    @JetEmail.request offline client "/email-batch"
      (JObject [("emails", JArray (dense (repeat hello 100)))]) [].
Proof.
  intros this.
  destruct (@Batch_send_guards offline this JUndefined []) as [H1 _].
  destruct (@Batch_send_guards offline this (JArray []) []) as [_ [H2 _]].
  destruct (@Batch_send_guards offline this (JArray (dense (repeat hello 101))) [])
    as [_ [_ [H3 _]]].
  destruct (@Batch_send_guards offline this (JArray (dense (repeat hello 100))) [])
    as [_ [_ [_ [_ H4]]]].
  split; [ apply H1; reflexivity | ].
  split; [ apply H2; reflexivity | ].
  split.
  - apply H3; [ reflexivity | apply Nat.ltb_lt; reflexivity ].
  - apply H4; [ reflexivity | reflexivity | ].
    apply dense_all, Forall_forall. intros x Hx. apply repeat_spec in Hx. now subst x.
Defined.

(** ** The dispatch routine *)

(** Induction on values, with the elements of an array at hand. *)
Lemma JsValue_array_ind (P : JsValue -> Prop) :
  P JUndefined -> P JNull -> (forall b, P (JBool b)) -> (forall n, P (JNumber n)) ->
  (forall s, P (JString s)) ->
  (forall items, Forall (on_present P) items -> P (JArray items)) ->
  (forall fields, P (JObject fields)) ->
  forall v, P v.
Proof.
  intros Hu Hn Hb Hnum Hs Ha Ho.
  fix IH 1. intros [ | | b | n | s | items | fields ].
  - exact Hu.
  - exact Hn.
  - apply Hb.
  - apply Hnum.
  - apply Hs.
  - apply Ha. induction items as [ | slot rest IHrest ].
    + constructor.
    + constructor; [ | exact IHrest ].
      destruct slot as [ x | ]; simpl; [ apply IH | exact I ].
  - apply Ho.
Qed.

(** The only fault of ToString is an object without a primitive value. *)
Lemma ToString_throws `{Runtime} (v : JsValue) (e : JsError) :
  ToString v = Throw e -> e = TypeError (faultMessage NoPrimitiveValue).
Proof.
  revert e. induction v as [ | | b | n | s | items IH | fields ] using JsValue_array_ind;
    intros e; simpl; try discriminate.
  - now destruct b.
  - induction IH as [ | slot rest Hslot _ IHrest ]; [ discriminate | ].
    assert (Hrest : forall sx,
              match rest with
              | [] => Return sx
              | _ :: _ =>
                  bindC ((fix join (l : list (option JsValue)) : Completion string :=
                            match l with
                            | [] => Return EmptyString
                            | slot :: rest =>
                                bindC match slot with
                                      | None => Return EmptyString
                                      | Some x =>
                                          if nullish x then Return EmptyString
                                          else ToString x
                                      end
                                  (fun sx =>
                                     match rest with
                                     | [] => Return sx
                                     | _ :: _ =>
                                         bindC (join rest)
                                           (fun srest => Return (sx ++ "," ++ srest))
                                     end)
                            end) rest)
                    (fun srest => Return (sx ++ "," ++ srest))
              end = Throw e ->
              e = TypeError (faultMessage NoPrimitiveValue)).
    { intros sx. destruct rest; [ discriminate | ]. unfold bindC at 1.
      match goal with
      | |- context [match ?j with Return _ => _ | Throw _ => _ end] =>
          destruct j as [ srest | e' ] eqn:Ej
      end; [ discriminate | ].
      intros [= <-]. now apply IHrest. }
    destruct slot as [ x | ]; simpl in Hslot.
    + destruct (nullish x).
      * unfold bindC at 1. apply Hrest.
      * unfold bindC at 1. destruct (ToString x) as [ sx | e' ] eqn:Ex.
        -- apply Hrest.
        -- intros [= <-]. now apply Hslot.
    + unfold bindC at 1. apply Hrest.
  - destruct (hasOwn "toString" fields); [ | discriminate ]. now intros [= <-].
Qed.

(** [response.ok] is the success range of the status. *)
Lemma ok_success (r : Response) : ok r = true <-> 200 <= status r <= 299.
Proof.
  unfold ok. rewrite andb_true_iff, !Nat.leb_le. tauto.
Qed.

Lemma ok_failure (r : Response) : ok r = false <-> status r < 200 \/ 299 < status r.
Proof.
  unfold ok. rewrite andb_false_iff, !Nat.leb_gt. tauto.
Qed.

Lemma trace_grows (w : Trace) (req : FetchRequest) : (w ++ [req])%list <> w.
Proof.
  intros E. apply (f_equal (@length _)) in E. rewrite length_app in E. simpl in E. lia.
Qed.

Lemma request_without_credential `{Runtime} (this : JetEmail.t) (endpoint : string)
    (body : JsValue) (w : Trace) (e : JsError) :
  ToString (JetEmail.apiKey this) = Throw e ->
  JetEmail.request this endpoint body w = (Throw e, w).
Proof. intros Hcred. unfold JetEmail.request, bindA, lift. now rewrite Hcred. Qed.

Section Dispatch.

(** One call of the dispatch routine by a client whose credential has a
    string form. *)
Context `{Runtime} (this : JetEmail.t) (endpoint : string) (payload : JsValue) (w : Trace).
Context (credential : string).
Hypothesis Hcred : ToString (JetEmail.apiKey this) = Return credential.

(** The request of this call, and the trace after it. *)
Let sent : FetchRequest :=
  JetEmail.fetch_init this endpoint ("Bearer " ++ credential) payload.
Let after : Trace := (w ++ [sent])%list.

Lemma request_transport_failure (m : string) :
  fetch sent = Rejects m ->
  JetEmail.request this endpoint payload w = (Throw (TypeError m), after).
Proof.
  intros Hfetch. unfold JetEmail.request, bindA, lift, await_fetch.
  rewrite Hcred. fold sent. rewrite Hfetch. reflexivity.
Qed.

Section Response.

(** The transport answers with [r]. *)
Context (r : Response).
Hypothesis Hfetch : fetch sent = Responds r.

Lemma request_responds :
  JetEmail.request this endpoint payload w =
  match json r with
  | None =>
      bindA (lift (new_JetEmailError
                     (JString ("Request failed with status " ++ decimal (status r)))
                     (status r) JUndefined))
            (fun error => reject error) after
  | Some data =>
      if negb (ok r)
      then bindA (lift (bindC (getProp data "message") (fun m =>
                    if truthy m then Return m else
                    bindC (getProp data "error") (fun e =>
                    if truthy e then Return e else Return (JString "Unknown error")))))
             (fun message =>
                bindA (lift (new_JetEmailError message (status r) data))
                      (fun error => reject error)) after
      else resolve data after
  end.
Proof.
  unfold JetEmail.request, bindA at 1 2, lift at 1, await_fetch.
  rewrite Hcred. fold sent. rewrite Hfetch.
  destruct (json r); [ destruct (ok r) | ]; reflexivity.
Qed.

Lemma request_undecodable :
  json r = None ->
  JetEmail.request this endpoint payload w =
  (Throw (JetEmailError ("Request failed with status " ++ decimal (status r))
            (status r) JUndefined), after).
Proof. intros Hjson. rewrite request_responds. now rewrite Hjson. Qed.

Lemma request_success (data : JsValue) :
  json r = Some data -> ok r = true ->
  JetEmail.request this endpoint payload w = (Return data, after).
Proof. intros Hjson Hok. rewrite request_responds. now rewrite Hjson, Hok. Qed.

Lemma request_failure_null (data : JsValue) :
  json r = Some data -> ok r = false -> nullish data = true ->
  JetEmail.request this endpoint payload w =
  (Throw (TypeError (faultMessage (ReadOfNullish data "message"))), after).
Proof.
  intros Hjson Hok Hnull. rewrite request_responds. rewrite Hjson, Hok. simpl.
  unfold bindA, lift.
  now rewrite (getProp_nullish data "message") by assumption.
Qed.

Lemma request_failure (data : JsValue) :
  json r = Some data -> ok r = false -> nullish data = false ->
  JetEmail.request this endpoint payload w =
  (match ToString (best_message data) with
   | Return text => Throw (JetEmailError text (status r) data)
   | Throw e => Throw e
   end, after).
Proof.
  intros Hjson Hok Hnull. rewrite request_responds. rewrite Hjson, Hok. simpl.
  unfold bindA, lift.
  rewrite !(getProp_present data) by assumption. unfold bindC, best_message.
  assert (Hnew : forall message, truthy message = true ->
            new_JetEmailError message (status r) data =
            match ToString message with
            | Return text => Return (JetEmailError text (status r) data)
            | Throw e => Throw e
            end).
  { intros message Ht. unfold new_JetEmailError, bindC. now destruct message. }
  destruct (truthy (property data "message")) eqn:Hm.
  - rewrite Hnew by assumption. now destruct (ToString (property data "message")).
  - destruct (truthy (property data "error")) eqn:He.
    + rewrite Hnew by assumption. now destruct (ToString (property data "error")).
    + reflexivity.
Qed.

(** X15. For a response with a non-success status whose body decodes to
    a value other than [null], the dispatch routine raises the API error
    with the status of the response and the whole decoded body: with the
    string form of the body's [message] if that is truthy and has one,
    else of its [error] if that is truthy and has one, else with
    [Unknown error] if both are falsy; a field that holds a non-empty
    string is the message as it stands. *)
Theorem request_api_error (data : JsValue) :
  json r = Some data -> status r < 200 \/ 299 < status r -> nullish data = false ->
  let raised := fst (JetEmail.request this endpoint payload w) in
  (forall text,
     truthy (property data "message") = true ->
     ToString (property data "message") = Return text ->
     raised = Throw (JetEmailError text (status r) data)) /\
  (forall text,
     truthy (property data "message") = false ->
     truthy (property data "error") = true ->
     ToString (property data "error") = Return text ->
     raised = Throw (JetEmailError text (status r) data)) /\
  (truthy (property data "message") = false ->
   truthy (property data "error") = false ->
   raised = Throw (JetEmailError "Unknown error" (status r) data)) /\
  (forall s,
     property data "message" = JString s -> s <> EmptyString ->
     raised = Throw (JetEmailError s (status r) data)) /\
  (forall s,
     truthy (property data "message") = false ->
     property data "error" = JString s -> s <> EmptyString ->
     raised = Throw (JetEmailError s (status r) data)).
Proof.
  intros Hjson Hok Hnull raised. subst raised. apply ok_failure in Hok.
  rewrite (request_failure data) by assumption.
  unfold best_message. simpl fst.
  assert (Hs : forall s, s <> EmptyString -> truthy (JString s) = true).
  { intros s Hne. destruct (truthy (JString s)) eqn:E; [ reflexivity | ].
    now apply truthy_string in E. }
  repeat split.
  - intros text Hm Ht. now rewrite Hm, Ht.
  - intros text Hm He Ht. now rewrite Hm, He, Ht.
  - intros Hm He. now rewrite Hm, He.
  - intros s Hm Hne. rewrite Hm. now rewrite (Hs s Hne).
  - intros s Hm He Hne. rewrite Hm, He. now rewrite (Hs s Hne).
Qed.

(** C6. For a response with a success status, the dispatch routine returns
    the decoded body as it is, whatever its shape; the body
    [{id: 'abc', response: 'queued'}] comes back with its [id] equal to
    [abc] and its [response] equal to [queued]. *)
Theorem request_returns_body (data : JsValue) :
  json r = Some data -> 200 <= status r <= 299 ->
  fst (JetEmail.request this endpoint payload w) = Return data /\
  (data = JObject [("id", JString "abc"); ("response", JString "queued")] ->
   exists result,
     fst (JetEmail.request this endpoint payload w) = Return result /\
     property result "id" = JString "abc" /\
     property result "response" = JString "queued").
Proof.
  intros Hjson Hok. apply ok_success in Hok.
  rewrite (request_success data) by assumption.
  split; [ reflexivity | ].
  intros ->. eexists. split; [ reflexivity | ]. split; reflexivity.
Qed.

(** C7. When the body of the response cannot be decoded, whatever the
    status, the dispatch routine raises the API error with the status of
    the response, the message [Request failed with status N], and no
    response body. *)
Theorem request_undecodable_body :
  json r = None ->
  fst (JetEmail.request this endpoint payload w) =
  Throw (JetEmailError ("Request failed with status " ++ decimal (status r))
           (status r) JUndefined).
Proof.
  intros Hjson. unfold JetEmail.request, bindA, lift, await_fetch.
  rewrite Hcred. fold sent. rewrite Hfetch, Hjson. reflexivity.
Qed.

End Response.

(** The call reaches [fetch] once, whatever the transport answers. *)
Lemma request_reaches_fetch :
  snd (JetEmail.request this endpoint payload w) = after.
Proof.
  destruct (fetch sent) as [ m | r ] eqn:Hfetch.
  - now rewrite (request_transport_failure m).
  - destruct (json r) as [ data | ] eqn:Hjson.
    + destruct (ok r) eqn:Hok.
      * now rewrite (request_success r Hfetch data).
      * destruct (nullish data) eqn:Hnull.
        -- now rewrite (request_failure_null r Hfetch data).
        -- now rewrite (request_failure r Hfetch data).
    + now rewrite (request_undecodable r Hfetch).
Qed.

(** An API error leaves the dispatch routine only after a response, and
    with the status of that response. *)
Lemma request_structured (w' : Trace) (m : string) (code : nat) (response : JsValue) :
  JetEmail.request this endpoint payload w = (Throw (JetEmailError m code response), w') ->
  exists r, fetch sent = Responds r /\ code = status r.
Proof.
  destruct (fetch sent) as [ m' | r ] eqn:Hfetch.
  - rewrite (request_transport_failure m') by assumption. discriminate.
  - intros Hreq. exists r. split; [ reflexivity | ].
    destruct (json r) as [ data | ] eqn:Hjson.
    + destruct (ok r) eqn:Hok.
      * rewrite (request_success r Hfetch data) in Hreq by assumption. discriminate.
      * destruct (nullish data) eqn:Hnull.
        -- rewrite (request_failure_null r Hfetch data) in Hreq by assumption.
           discriminate.
        -- rewrite (request_failure r Hfetch data) in Hreq by assumption.
           destruct (ToString (best_message data)) as [ text | e ] eqn:Htext.
           ++ now injection Hreq as _ -> _ _.
           ++ rewrite (ToString_throws _ _ Htext) in Hreq. discriminate.
    + rewrite (request_undecodable r Hfetch) in Hreq by assumption.
      now injection Hreq as _ -> _ _.
Qed.

(** C8. A call of the dispatch routine adds exactly one request to the
    trace: a POST to the base address followed by the endpoint, with the
    serialized body and the two headers [Content-Type: application/json]
    and [Authorization: Bearer] followed by the credential. Single send
    calls it with [/email] and the request object itself, batch send with
    [/email-batch] and the list under the one field [emails]. *)
Theorem request_issues_one_post :
  snd (JetEmail.request this endpoint payload w) =
    app w [ {| url := JetEmail.baseUrl this ++ endpoint;
               method := "POST";
               headers := [("Content-Type", "application/json");
                           ("Authorization", "Bearer " ++ credential)];
               body := JSON_stringify payload |} ] /\
  (forall key, JetEmail.apiKey this = JString key -> credential = key) /\
  (forall options,
     Emails.validateEmailOptions options = Return tt ->
     Emails.send (JetEmail.email this) options w =
     JetEmail.request this "/email" options w) /\
  (forall items,
     1 <= length items <= 100 ->
     Forall (fun x => Batch.validateEmailOptions x = Return tt) items ->
     Batch.send (JetEmail.batch this) (JArray (dense items)) w =
     JetEmail.request this "/email-batch"
       (JObject [("emails", JArray (dense items))]) w).
Proof.
  split; [ | split; [ | split ] ].
  - now rewrite request_reaches_fetch.
  - intros key Hkey. pose proof Hcred as Hc. rewrite Hkey in Hc. simpl in Hc.
    now injection Hc as <-.
  - intros options Hvalid. rewrite send_after_validation, Hvalid. reflexivity.
  - intros items Hlen Hall. now apply Batch_send_all_pass_dense.
Qed.

End Dispatch.

(** Where the trace stands after a call, and what was thrown if no
    request went out. *)
Lemma request_trace `{Runtime} (this : JetEmail.t) (endpoint : string) (body : JsValue)
    (w : Trace) :
  (exists m, JetEmail.request this endpoint body w = (Throw (TypeError m), w)) \/
  (exists req, snd (JetEmail.request this endpoint body w) = (w ++ [req])%list).
Proof.
  destruct (ToString (JetEmail.apiKey this)) as [ credential | e ] eqn:Hcred.
  - right. eexists. now apply (request_reaches_fetch this endpoint body w credential).
  - left. exists (faultMessage NoPrimitiveValue).
    rewrite (ToString_throws _ _ Hcred) in Hcred.
    now apply request_without_credential.
Qed.

Lemma request_structured_response `{Runtime} (this : JetEmail.t) (endpoint : string)
    (body : JsValue) (w w' : Trace) (m : string) (code : nat) (response : JsValue) :
  JetEmail.request this endpoint body w = (Throw (JetEmailError m code response), w') ->
  exists credential r,
    ToString (JetEmail.apiKey this) = Return credential /\
    fetch (JetEmail.fetch_init this endpoint ("Bearer " ++ credential) body) = Responds r /\
    code = status r.
Proof.
  destruct (ToString (JetEmail.apiKey this)) as [ credential | e ] eqn:Hcred.
  - intros Hreq.
    destruct (request_structured this endpoint body w credential Hcred _ _ _ _ Hreq)
      as [r [Hfetch Hcode]].
    now exists credential, r.
  - rewrite (request_without_credential this endpoint body w e) by assumption.
    rewrite (ToString_throws _ _ Hcred). discriminate.
Qed.

(** C2, where the code departs from it. Two responses with a non-success
    status and a body that decodes. For the JSON text [null] at status
    500, reading [message] from the decoded body is a [TypeError] of the
    engine. For [{message: {toString: 'x'}}] at status 422, the message
    has no string form and the constructor of the API error throws a
    [TypeError]. In neither case does the dispatch routine raise the API
    error, and the status of the response is lost. *)
Theorem request_malformed_error_body :
  let R := mock (Responds {| status := 500; json := Some JNull |}) in
  let R' := mock (Responds {| status := 422; json := Some unprintable |}) in
  fst (@JetEmail.request R client "/email" hello []) =
    Throw (TypeError "Cannot read properties of null (reading 'message')") /\
  ~ (exists message,
       fst (@JetEmail.request R client "/email" hello []) =
       Throw (JetEmailError message 500 JNull)) /\
  fst (@JetEmail.request R' client "/email" hello []) =
    Throw (TypeError "Cannot convert object to primitive value") /\
  ~ (exists message,
       fst (@JetEmail.request R' client "/email" hello []) =
       Throw (JetEmailError message 422 unprintable)).
Proof.
  intros R R'. split; [ reflexivity | ]. split.
  - intros [message Hm]. vm_compute in Hm. discriminate.
  - split; [ reflexivity | ].
    intros [message Hm]. vm_compute in Hm. discriminate.
Qed.

Lemma request_api_error_witness :
  let data := JObject [("message", JString "invalid recipient")] in
  let R := mock (Responds {| status := 400; json := Some data |}) in
  fst (@JetEmail.request R client "/email" hello []) =
  Throw (JetEmailError "invalid recipient" 400 data).
Proof.
  intros data R.
  destruct (@request_api_error R client "/email" hello [] "key" eq_refl
              {| status := 400; json := Some data |} eq_refl data
              eq_refl (or_intror (proj1 (Nat.ltb_lt 299 400) eq_refl)) eq_refl)
    as [_ [_ [_ [Hs _]]]].
  apply Hs; [ reflexivity | discriminate ].
Defined.

Lemma request_returns_body_witness :
  fst (@Emails.send online (@JetEmail.email online client) hello []) = Return queued /\
  property queued "id" = JString "abc" /\
  property queued "response" = JString "queued".
Proof.
  destruct (@request_returns_body online client "/email" hello [] "key" eq_refl
              {| status := 200; json := Some queued |} eq_refl queued
              eq_refl
              (conj (proj1 (Nat.leb_le 200 200) eq_refl)
                    (proj1 (Nat.leb_le 200 299) eq_refl)))
    as [Hbody Hfields].
  split; [ exact Hbody | ].
  destruct (Hfields eq_refl) as [result [Hresult [Hid Hresponse]]].
  rewrite Hbody in Hresult. injection Hresult as <-. split; assumption.
Defined.

Lemma request_undecodable_body_witness :
  let R := mock (Responds {| status := 500; json := None |}) in
  fst (@JetEmail.request R client "/email" hello []) =
    Throw (JetEmailError "Request failed with status 500" 500 JUndefined) /\
  let R' := mock (Responds {| status := 200; json := None |}) in
  fst (@JetEmail.request R' client "/email" hello []) =
    Throw (JetEmailError "Request failed with status 200" 200 JUndefined).
Proof.
  split.
  - exact (@request_undecodable_body
             (mock (Responds {| status := 500; json := None |})) client "/email" hello []
             "key" eq_refl {| status := 500; json := None |} eq_refl eq_refl).
  - exact (@request_undecodable_body
             (mock (Responds {| status := 200; json := None |})) client "/email" hello []
             "key" eq_refl {| status := 200; json := None |} eq_refl eq_refl).
Defined.

Lemma request_issues_one_post_witness :
  snd (@JetEmail.request online client "/email" hello []) =
    [ {| url := "https://api.jetemail.com/email";
         method := "POST";
         headers := [("Content-Type", "application/json");
                     ("Authorization", "Bearer key")];
         body := @JSON_stringify online hello |} ] /\
  @Emails.send online (@JetEmail.email online client) hello [] =
    @JetEmail.request online client "/email" hello [] /\
  @Batch.send online (@JetEmail.batch online client) (JArray (dense [hello; hello])) [] =
    @JetEmail.request online client "/email-batch"
      (JObject [("emails", JArray (dense [hello; hello]))]) [].
Proof.
  destruct (@request_issues_one_post online client "/email" hello [] "key" eq_refl)
    as [Hpost [_ [Hemail Hbatch]]].
  split; [ exact Hpost | ].
  split; [ apply Hemail; reflexivity | ].
  apply Hbatch.
  - split; apply Nat.leb_le; reflexivity.
  - repeat constructor.
Defined.

(** ** The two classes of errors *)

Lemma plain_not_structured (e : JsError) :
  (exists m, e = Error m) \/ (exists m, e = TypeError m) ->
  instanceof_JetEmailError e = false.
Proof. intros [ [m ->] | [m ->] ]; reflexivity. Qed.

Lemma forEach_from_throws_Error `{Runtime} (items : list (option JsValue))
    (e : JsError) :
  forall index,
  forEach_from Batch.validate_item items index = Throw e -> exists m, e = Error m.
Proof.
  induction items as [ | [ x | ] rest IH ]; intros index; simpl;
    [ discriminate | | apply IH ].
  unfold Batch.validate_item at 1.
  destruct (Batch.validateEmailOptions x) as [ [] | e' ]; simpl.
  - apply IH.
  - intros [= <-]. eauto.
Qed.

(** Batch send, guard by guard. *)
Lemma Batch_send_steps `{Runtime} (this : Batch.t) (emails : JsValue) (w : Trace) :
  Batch.send this emails w =
  if negb (Array_isArray emails) || (Array_length emails =? 0)%nat
  then (Throw (Error Batch.array_required), w)
  else if (100 <? Array_length emails)%nat
  then (Throw (Error Batch.maximum_size), w)
  else match forEach Batch.validate_item (Array_items emails) with
       | Return _ =>
           Batch.request this "/email-batch" (JObject [("emails", emails)]) w
       | Throw e => (Throw e, w)
       end.
Proof.
  unfold Batch.send, bindA, lift, reject.
  destruct (negb (Array_isArray emails) || (Array_length emails =? 0)%nat);
    [ reflexivity | ].
  destruct (100 <? Array_length emails)%nat; [ reflexivity | ].
  now destruct (forEach Batch.validate_item (Array_items emails)).
Qed.

(** An error of the dispatch routine that left the trace as it was is a
    [TypeError]. *)
Lemma request_silent_throw `{Runtime} (this : JetEmail.t) (endpoint : string)
    (body : JsValue) (w : Trace) (e : JsError) :
  JetEmail.request this endpoint body w = (Throw e, w) -> exists m, e = TypeError m.
Proof.
  intros Hreq.
  destruct (request_trace this endpoint body w) as [ [m Hm] | [req Hsnd] ].
  - rewrite Hm in Hreq. injection Hreq as <-. eauto.
  - rewrite Hreq in Hsnd. simpl in Hsnd. symmetry in Hsnd. now apply trace_grows in Hsnd.
Qed.

Lemma constructor_throws_plain `{Runtime} (configOrApiKey : JsValue) (e : JsError) :
  JetEmail.constructor configOrApiKey = Throw e ->
  (exists m, e = Error m) \/ (exists m, e = TypeError m).
Proof.
  unfold JetEmail.constructor.
  set (config := if typeof_string configOrApiKey then _ else _).
  unfold getProp. destruct (nullish config); simpl.
  - intros [= <-]. right. eauto.
  - destruct (truthy (property config "apiKey")); simpl.
    + destruct (property config "baseUrl"); simpl; try discriminate;
        intros [= <-]; right; eauto.
    + intros [= <-]. left. eauto.
Qed.

(** The transport is down, or answers 502 with the JSON text [null]: the
    dispatch routine raises an error that is not the API error. *)
Lemma request_raises_TypeError :
  (exists e,
     fst (@JetEmail.request offline client "/email" hello []) = Throw e /\
     instanceof_JetEmailError e = false) /\
  (exists e,
     fst (@JetEmail.request (mock (Responds {| status := 502; json := Some JNull |}))
            client "/email" hello []) = Throw e /\
     instanceof_JetEmailError e = false).
Proof.
  split; eexists; split; reflexivity.
Qed.

(** C9, amended. An error of local validation is never the API error:
    what the field checks and the constructor throw, and every rejection
    of single send or batch send that left the trace of [fetch] calls as
    it was, fails the [instanceof JetEmailError] test. The errors the
    dispatch routine makes from a response (an undecodable body; a
    non-success status with a decoded body other than [null] whose message
    has a string form) pass that test and carry the status of the
    response, and so does every API error that leaves the dispatch
    routine. *)
Theorem error_classes `{Runtime} (this : JetEmail.t) (w : Trace) :
  (forall options e,
     Emails.validateEmailOptions options = Throw e ->
     instanceof_JetEmailError e = false) /\
  (forall configOrApiKey e,
     JetEmail.constructor configOrApiKey = Throw e ->
     instanceof_JetEmailError e = false) /\
  (forall options e,
     Emails.send (JetEmail.email this) options w = (Throw e, w) ->
     instanceof_JetEmailError e = false) /\
  (forall emails e,
     Batch.send (JetEmail.batch this) emails w = (Throw e, w) ->
     instanceof_JetEmailError e = false) /\
  (forall endpoint body credential r,
     ToString (JetEmail.apiKey this) = Return credential ->
     fetch (JetEmail.fetch_init this endpoint ("Bearer " ++ credential) body) = Responds r ->
     json r = None \/
     (exists data text,
        json r = Some data /\ ok r = false /\ nullish data = false /\
        ToString (best_message data) = Return text) ->
     exists e,
       fst (JetEmail.request this endpoint body w) = Throw e /\
       instanceof_JetEmailError e = true /\
       statusCode_of e = Some (status r)) /\
  (forall endpoint body w' e,
     JetEmail.request this endpoint body w = (Throw e, w') ->
     instanceof_JetEmailError e = true ->
     exists credential r,
       ToString (JetEmail.apiKey this) = Return credential /\
       fetch (JetEmail.fetch_init this endpoint ("Bearer " ++ credential) body)
         = Responds r /\
       statusCode_of e = Some (status r)).
Proof.
  split; [ | split; [ | split; [ | split; [ | split ] ] ] ].
  - intros options e He. apply plain_not_structured. now apply validate_throws_plain in He.
  - intros x e He. apply plain_not_structured. now apply constructor_throws_plain in He.
  - intros options e. rewrite send_after_validation.
    destruct (Emails.validateEmailOptions options) as [ [] | e' ] eqn:Hv.
    + intros Hreq. apply request_silent_throw in Hreq as [m ->]. reflexivity.
    + intros [= <-]. apply plain_not_structured. now apply validate_throws_plain in Hv.
  - intros emails e. rewrite Batch_send_steps.
    destruct (negb (Array_isArray emails) || (Array_length emails =? 0)%nat);
      [ now intros [= <-] | ].
    destruct (100 <? Array_length emails)%nat; [ now intros [= <-] | ].
    destruct (forEach Batch.validate_item (Array_items emails)) as [ [] | e' ] eqn:Hloop.
    + intros Hreq. apply request_silent_throw in Hreq as [m ->]. reflexivity.
    + intros [= <-]. apply forEach_from_throws_Error in Hloop as [m ->]. reflexivity.
  - intros endpoint body credential r Hcred Hfetch
      [ Hjson | [data [text [Hjson [Hok [Hnull Htext]]]]] ].
    + rewrite (request_undecodable this endpoint body w credential Hcred r Hfetch)
        by assumption.
      eexists. split; [ reflexivity | split; reflexivity ].
    + rewrite (request_failure this endpoint body w credential Hcred r Hfetch data)
        by assumption.
      rewrite Htext. eexists. split; [ reflexivity | split; reflexivity ].
  - intros endpoint body w' e Hreq He.
    destruct e as [ m | m | m code payload ]; try discriminate.
    apply request_structured_response in Hreq as [credential [r [Hcred [Hfetch ->]]]].
    exists credential, r. repeat split; assumption.
Qed.

Lemma error_classes_witness :
  instanceof_JetEmailError (Error from_required) = false /\
  instanceof_JetEmailError (Error JetEmail.apiKey_required) = false /\
  instanceof_JetEmailError (Error Batch.array_required) = false /\
  (exists e,
     fst (@JetEmail.request (mock (Responds {| status := 500; json := None |}))
            client "/email" hello []) = Throw e /\
     instanceof_JetEmailError e = true /\ statusCode_of e = Some 500).
Proof.
  destruct (@error_classes (mock (Responds {| status := 500; json := None |})) client [])
    as [Hvalidate [Hnew [_ [Hbatch [Hmade _]]]]].
  split; [ apply (Hvalidate anonymous); reflexivity | ].
  split; [ apply (Hnew (JString EmptyString)); reflexivity | ].
  split; [ apply (Hbatch (JArray [])); reflexivity | ].
  apply (Hmade "/email" hello "key" {| status := 500; json := None |});
    [ reflexivity | reflexivity | left; reflexivity ].
Defined.

(** ** The constructor *)

Lemma append_slash_nonempty (s : string) : s ++ "/" <> EmptyString.
Proof. now destruct s. Qed.

Lemma replace_trailing_slash_strips (s : string) :
  JetEmail.replace_trailing_slash (s ++ "/") = s.
Proof.
  induction s as [ | c s IH ]; [ reflexivity | ].
  change (String c s ++ "/") with (String c (s ++ "/")).
  pose proof (append_slash_nonempty s) as Hne.
  destruct (s ++ "/") as [ | a t ] eqn:E; [ congruence | ].
  change (JetEmail.replace_trailing_slash (String c (String a t)))
    with (String c (JetEmail.replace_trailing_slash (String a t))).
  now rewrite IH.
Qed.

Lemma replace_trailing_slash_keeps (s : string) (c : ascii) :
  c <> "/"%char ->
  JetEmail.replace_trailing_slash (s ++ String c EmptyString) = s ++ String c EmptyString.
Proof.
  intros Hc. induction s as [ | a s IH ].
  - simpl. now destruct (Ascii.eqb_spec c "/").
  - change (String a s ++ String c EmptyString)
      with (String a (s ++ String c EmptyString)).
    destruct (s ++ String c EmptyString) as [ | b t ] eqn:E; [ now destruct s | ].
    change (JetEmail.replace_trailing_slash (String a (String b t)))
      with (String a (JetEmail.replace_trailing_slash (String b t))).
    now rewrite IH.
Qed.

(** C5. Constructing the client throws when no credential is given, as a
    bare string or in a configuration record; otherwise the client keeps
    the credential, and its base address is the override with one trailing
    slash removed, or [https://api.jetemail.com] when there is no
    override. *)
Theorem constructor_credential_and_base `{Runtime} :
  JetEmail.constructor (JString EmptyString) =
    Throw (Error "JetEmail: apiKey is required") /\
  (forall config,
     typeof_string config = false -> nullish config = false ->
     truthy (property config "apiKey") = false ->
     JetEmail.constructor config = Throw (Error "JetEmail: apiKey is required")) /\
  (forall key,
     key <> EmptyString ->
     JetEmail.constructor (JString key) =
     Return {| JetEmail.apiKey := JString key;
               JetEmail.baseUrl := "https://api.jetemail.com" |}) /\
  (forall config override,
     typeof_string config = false -> nullish config = false ->
     truthy (property config "apiKey") = true ->
     property config "baseUrl" = JString override ->
     JetEmail.constructor config =
     Return {| JetEmail.apiKey := property config "apiKey";
               JetEmail.baseUrl := JetEmail.replace_trailing_slash override |}) /\
  (forall config,
     typeof_string config = false -> nullish config = false ->
     truthy (property config "apiKey") = true ->
     nullish (property config "baseUrl") = true ->
     JetEmail.constructor config =
     Return {| JetEmail.apiKey := property config "apiKey";
               JetEmail.baseUrl := "https://api.jetemail.com" |}) /\
  (forall s, JetEmail.replace_trailing_slash (s ++ "/") = s) /\
  (forall s c,
     c <> "/"%char ->
     JetEmail.replace_trailing_slash (s ++ String c EmptyString) =
     s ++ String c EmptyString) /\
  JetEmail.replace_trailing_slash EmptyString = EmptyString.
Proof.
  split; [ reflexivity | ].
  split.
  { intros config Hstr Hnull Hkey. unfold JetEmail.constructor. rewrite Hstr.
    rewrite getProp_present by assumption. simpl. now rewrite Hkey. }
  split.
  { intros key Hne. unfold JetEmail.constructor, getProp. simpl.
    destruct (String.eqb_spec key EmptyString) as [ E | _ ]; [ contradiction | ].
    reflexivity. }
  split.
  { intros config override Hstr Hnull Hkey Hbase. unfold JetEmail.constructor.
    rewrite Hstr. rewrite !getProp_present by assumption. simpl.
    now rewrite Hkey, Hbase. }
  split.
  { intros config Hstr Hnull Hkey Hbase. unfold JetEmail.constructor.
    rewrite Hstr. rewrite !getProp_present by assumption. simpl. rewrite Hkey. simpl.
    now destruct (property config "baseUrl"). }
  split; [ apply replace_trailing_slash_strips | ].
  split; [ apply replace_trailing_slash_keeps | reflexivity ].
Qed.

Lemma constructor_credential_and_base_witness :
  @JetEmail.constructor offline (JObject [("baseUrl", JString "https://eu.example.com/")]) =
    Throw (Error "JetEmail: apiKey is required") /\
  @JetEmail.constructor offline (JString "key") = Return client /\
  @JetEmail.constructor offline
    (JObject [("apiKey", JString "key"); ("baseUrl", JString "https://eu.example.com//")]) =
    Return {| JetEmail.apiKey := JString "key";
              JetEmail.baseUrl := "https://eu.example.com/" |} /\
  @JetEmail.constructor offline (JObject [("apiKey", JString "key")]) = Return client /\
  JetEmail.replace_trailing_slash "https://eu.example.com" = "https://eu.example.com".
Proof.
  destruct (@constructor_credential_and_base offline)
    as [_ [Hmissing [Hbare [Hoverride [Hdefault [_ [Hkeeps _]]]]]]].
  split; [ apply Hmissing; reflexivity | ].
  split; [ apply Hbare; discriminate | ].
  split.
  - apply (Hoverride
             (JObject [("apiKey", JString "key"); ("baseUrl", JString "https://eu.example.com//")])
             "https://eu.example.com//"); reflexivity.
  - split; [ apply (Hdefault (JObject [("apiKey", JString "key")])); reflexivity | ].
    apply (Hkeeps "https://eu.example.co" "m"%char). discriminate.
Defined.

(** ** Presence is truthiness *)

Lemma has_property_not_nullish (options : JsValue) (name : string) (v : JsValue) :
  property options name = v -> v <> JUndefined -> nullish options = false.
Proof. destruct options; simpl; congruence. Qed.

(** An item that fails validation is turned away by both operations. *)
Lemma rejected_by_both `{Runtime} (this : Emails.t) (batch : Batch.t)
    (options : JsValue) (pre post : list JsValue) (w : Trace) (e : JsError) :
  length (pre ++ options :: post) <= 100 ->
  Forall (fun x => Batch.validateEmailOptions x = Return tt) pre ->
  Emails.validateEmailOptions options = Throw e ->
  Emails.send this options w = (Throw e, w) /\
  Batch.send batch (JArray (dense (pre ++ options :: post))) w =
  (Throw (Error (Batch.invalid_at (length pre) (error_message e))), w).
Proof.
  intros Hlen Hpre Hv. split.
  - rewrite send_after_validation. now rewrite Hv.
  - now apply Batch_send_first_throw_dense.
Qed.

(** C10. A field is present when it is truthy, and the empty string is
    not: a request whose [from], [to] or [subject] is the empty string is
    rejected by single send with the message of that field, and by batch
    send with that message after the index of the item; a request whose
    [html] is the empty string and that has no [text] is rejected for its
    missing content. (The fields checked before the empty one are
    present, the items before the request are valid, and the batch has at
    most 100 items.) *)
Theorem empty_string_is_missing `{Runtime} (this : Emails.t) (batch : Batch.t)
    (options : JsValue) (pre post : list JsValue) (w : Trace) :
  length (pre ++ options :: post) <= 100 ->
  Forall (fun x => Batch.validateEmailOptions x = Return tt) pre ->
  let present name := truthy (property options name) in
  let rejected message :=
    Emails.send this options w = (Throw (Error message), w) /\
    Batch.send batch (JArray (dense (pre ++ options :: post))) w =
    (Throw (Error ("JetEmail: email at index " ++ decimal (length pre)
                   ++ " is invalid - " ++ message)), w) in
  truthy (JString EmptyString) = false /\
  (property options "from" = JString EmptyString -> rejected from_required) /\
  (present "from" = true -> property options "to" = JString EmptyString ->
   rejected to_required) /\
  (present "from" = true -> present "to" = true ->
   property options "subject" = JString EmptyString ->
   rejected subject_required) /\
  (present "from" = true -> present "to" = true -> present "subject" = true ->
   property options "html" = JString EmptyString ->
   property options "text" = JUndefined ->
   rejected content_required) /\
  (property options "from" = JString EmptyString \/
   property options "to" = JString EmptyString \/
   property options "subject" = JString EmptyString \/
   (property options "html" = JString EmptyString /\
    property options "text" = JUndefined) ->
   exists message,
     In message [from_required; to_required; subject_required; content_required] /\
     rejected message).
Proof.
  intros Hlen Hpre present rejected. subst present rejected. cbv beta.
  split; [ reflexivity | ].
  split; [ | split; [ | split; [ | split ] ] ].
  5: {
    intros Hempty.
    assert (Hobj : nullish options = false).
    { destruct Hempty as [ E | [ E | [ E | [ E _ ] ] ] ];
        exact (has_property_not_nullish _ _ _ E ltac:(discriminate)). }
    assert (Hv : exists message,
               In message [from_required; to_required; subject_required; content_required] /\
               Emails.validateEmailOptions options = Throw (Error message)).
    { rewrite Emails_validate_checks by assumption.
      destruct (truthy (property options "from")) eqn:Hf;
        [ | eexists; split; [ | reflexivity ]; simpl; tauto ].
      destruct (truthy (property options "to")) eqn:Ht;
        [ | eexists; split; [ | reflexivity ]; simpl; tauto ].
      destruct (truthy (property options "subject")) eqn:Hs;
        [ | eexists; split; [ | reflexivity ]; simpl; tauto ].
      destruct Hempty as [ E | [ E | [ E | [ E1 E2 ] ] ] ];
        try (rewrite E in *; discriminate).
      rewrite E1, E2. eexists; split; [ | reflexivity ]; simpl; tauto. }
    destruct Hv as [message [Hin Hv]]. exists message. split; [ exact Hin | ].
    exact (rejected_by_both this batch options pre post w (Error message) Hlen Hpre Hv). }
  all: intros; split;
    match goal with
    | E : property _ _ = JString EmptyString |- _ =>
        pose proof (has_property_not_nullish _ _ _ E ltac:(discriminate)) as Hobj
    end;
    match goal with
    | |- Emails.send _ _ _ = (Throw ?e, _) =>
        apply (rejected_by_both this batch options pre post w e Hlen Hpre)
    | |- Batch.send _ _ _ = (Throw (Error (_ ++ _ ++ _ ++ ?m)), _) =>
        apply (rejected_by_both this batch options pre post w (Error m) Hlen Hpre)
    end;
    rewrite Emails_validate_checks by assumption;
    rewrite_fields; reflexivity.
Qed.

Lemma empty_string_is_missing_witness :
  let this := @JetEmail.email offline client in
  let batch := @JetEmail.batch offline client in
  (@Emails.send offline this blank_from [] = (Throw (Error from_required), []) /\
   @Batch.send offline batch (JArray (dense ([hello] ++ blank_from :: [hello]))) [] =
   (Throw (Error ("JetEmail: email at index " ++ decimal 1 ++ " is invalid - "
                  ++ from_required)), [])) /\
  (@Emails.send offline this blank_html [] = (Throw (Error content_required), []) /\
   @Batch.send offline batch (JArray (dense ([hello] ++ blank_html :: [hello]))) [] =
   (Throw (Error ("JetEmail: email at index " ++ decimal 1 ++ " is invalid - "
                  ++ content_required)), [])).
Proof.
  intros this batch.
  assert (Hlen : forall x, length ([hello] ++ x :: [hello]) <= 100)
    by (intros x; apply Nat.leb_le; reflexivity).
  assert (Hpre : Forall (fun x => @Batch.validateEmailOptions offline x = Return tt) [hello])
    by (repeat constructor).
  split.
  - destruct (@empty_string_is_missing offline this batch blank_from [hello] [hello] []
                (Hlen blank_from) Hpre) as [_ [Hfrom _]].
    apply Hfrom. reflexivity.
  - destruct (@empty_string_is_missing offline this batch blank_html [hello] [hello] []
                (Hlen blank_html) Hpre) as [_ [_ [_ [_ Hhtml]]]].
    apply Hhtml; reflexivity.
Defined.

(** ** What validation reads *)

Lemma lookup_other (name k : string) (v : JsValue) (fields : list (string * JsValue)) :
  k <> name -> lookup name ((k, v) :: fields) = lookup name fields.
Proof.
  intros Hk. simpl. now destruct (String.eqb_spec k name).
Qed.

Lemma validate_passes `{Runtime} (options : JsValue) :
  nullish options = false ->
  truthy (property options "from") = true ->
  truthy (property options "to") = true ->
  truthy (property options "subject") = true ->
  truthy (property options "html") || truthy (property options "text") = true ->
  Emails.validateEmailOptions options = Return tt.
Proof.
  intros Hv Hf Ht Hs Hc. rewrite Emails_validate_checks by assumption.
  rewrite Hf, Ht, Hs. simpl.
  destruct (truthy (property options "html")), (truthy (property options "text"));
    simpl in *; congruence.
Qed.

Lemma validate_passes_inv `{Runtime} (options : JsValue) (u : unit) :
  Emails.validateEmailOptions options = Return u ->
  nullish options = false /\
  truthy (property options "from") = true /\
  truthy (property options "to") = true /\
  truthy (property options "subject") = true /\
  truthy (property options "html") || truthy (property options "text") = true.
Proof.
  destruct (nullish options) eqn:Hv.
  - rewrite validate_nullish by assumption. discriminate.
  - rewrite Emails_validate_checks by assumption.
    destruct (truthy (property options "from")); [ | discriminate ].
    destruct (truthy (property options "to")); [ | discriminate ].
    destruct (truthy (property options "subject")); [ | discriminate ].
    destruct (truthy (property options "html")), (truthy (property options "text"));
      simpl; try discriminate; auto.
Qed.

(** X1. Validation reads the five properties [from], [to], [subject],
    [html] and [text] and nothing else: adding a property of any other
    name, with any value, to a request leaves the outcome of validation
    as it was, in single send and in batch send. *)
Theorem validation_ignores_other_fields `{Runtime} (name : string) (v : JsValue)
    (fields : list (string * JsValue)) :
  ~ In name ["from"; "to"; "subject"; "html"; "text"] ->
  Emails.validateEmailOptions (JObject ((name, v) :: fields)) =
    Emails.validateEmailOptions (JObject fields) /\
  Batch.validateEmailOptions (JObject ((name, v) :: fields)) =
    Batch.validateEmailOptions (JObject fields).
Proof.
  intros Hname.
  assert (Hread : forall k, In k ["from"; "to"; "subject"; "html"; "text"] ->
            property (JObject ((name, v) :: fields)) k = property (JObject fields) k).
  { intros k Hk. unfold property. rewrite lookup_other; [ reflexivity | ].
    intros ->. contradiction. }
  assert (Hsame : Emails.validateEmailOptions (JObject ((name, v) :: fields)) =
                  Emails.validateEmailOptions (JObject fields)).
  { rewrite !Emails_validate_checks by reflexivity.
    rewrite !Hread by (simpl; tauto). reflexivity. }
  split; [ exact Hsame | exact Hsame ].
Qed.

Lemma validation_ignores_other_fields_witness :
  @Emails.validateEmailOptions offline
    (JObject [("attachments", JString "not a list"); ("to", JString "b@y.com");
              ("subject", JString "Hi"); ("text", JString "hello")]) =
  @Emails.validateEmailOptions offline anonymous.
Proof.
  apply (@validation_ignores_other_fields offline "attachments" (JString "not a list")).
  simpl. intros [ E | [ E | [ E | [ E | [ E | [] ] ] ] ] ]; discriminate.
Defined.

(** X2. A recipient that is an array passes the recipient check, whatever
    it holds and also when it is empty: such a request with a sender, a
    subject and a body is valid. *)
Theorem array_recipient_passes `{Runtime} (options : JsValue)
    (items : list (option JsValue)) :
  property options "to" = JArray items ->
  truthy (property options "from") = true ->
  truthy (property options "subject") = true ->
  truthy (property options "html") || truthy (property options "text") = true ->
  Emails.validateEmailOptions options = Return tt /\
  Batch.validateEmailOptions options = Return tt.
Proof.
  intros Hto Hf Hs Hc.
  assert (Hv : Emails.validateEmailOptions options = Return tt).
  { apply validate_passes; try assumption.
    - exact (has_property_not_nullish _ _ _ Hto ltac:(discriminate)).
    - now rewrite Hto. }
  split; exact Hv.
Qed.

Lemma array_recipient_passes_witness :
  @Emails.validateEmailOptions offline no_recipients = Return tt /\
  @Batch.validateEmailOptions offline no_recipients = Return tt.
Proof.
  apply (@array_recipient_passes offline no_recipients []); reflexivity.
Defined.

(** X3. A request that is [undefined] or [null] is rejected before any
    call of the transport: single send rejects with the engine's
    [TypeError] for reading [from], and batch send, for such an item after
    valid ones in a batch of at most 100, wraps that message in a plain
    error with the index of the item. *)
Theorem nullish_request_rejected `{Runtime} (this : Emails.t) (batch : Batch.t)
    (options : JsValue) (pre post : list JsValue) (w : Trace) :
  nullish options = true ->
  length (pre ++ options :: post) <= 100 ->
  Forall (fun x => Batch.validateEmailOptions x = Return tt) pre ->
  Emails.send this options w =
    (Throw (TypeError (faultMessage (ReadOfNullish options "from"))), w) /\
  Batch.send batch (JArray (dense (pre ++ options :: post))) w =
    (Throw (Error ("JetEmail: email at index " ++ decimal (length pre)
                   ++ " is invalid - "
                   ++ faultMessage (ReadOfNullish options "from"))), w).
Proof.
  intros Hnull Hlen Hpre.
  exact (rejected_by_both this batch options pre post w _ Hlen Hpre
           (validate_nullish options Hnull)).
Qed.

Lemma nullish_request_rejected_witness :
  @Emails.send offline (@JetEmail.email offline client) JNull [] =
    (Throw (TypeError "Cannot read properties of null (reading 'from')"), []) /\
  @Batch.send offline (@JetEmail.batch offline client)
    (JArray (dense ([hello] ++ JNull :: [hello]))) [] =
    (Throw (Error ("JetEmail: email at index " ++ decimal 1 ++ " is invalid - "
                   ++ "Cannot read properties of null (reading 'from')")), []).
Proof.
  apply (@nullish_request_rejected offline (@JetEmail.email offline client)
           (@JetEmail.batch offline client) JNull [hello] [hello] []).
  - reflexivity.
  - apply Nat.leb_le. reflexivity.
  - repeat constructor.
Defined.

(** ** Which item batch send reports *)

(** Validation either passes or throws. *)
Lemma validate_outcome `{Runtime} (options : JsValue) :
  Batch.validateEmailOptions options = Return tt \/
  exists e, Batch.validateEmailOptions options = Throw e.
Proof.
  destruct (Batch.validateEmailOptions options) as [ [] | e ]; eauto.
Qed.

(** An array with an invalid element splits at its first invalid
    element. *)
Lemma first_invalid `{Runtime} (items : list (option JsValue)) :
  Exists (fun slot => exists x,
            slot = Some x /\ Batch.validateEmailOptions x <> Return tt) items ->
  exists pre item post e,
    items = (pre ++ Some item :: post)%list /\
    Forall (on_present (fun x => Batch.validateEmailOptions x = Return tt)) pre /\
    Batch.validateEmailOptions item = Throw e.
Proof.
  induction items as [ | slot rest IH ]; intros Hex; [ inversion Hex | ].
  assert (Hlater : Exists (fun slot => exists x,
                      slot = Some x /\ Batch.validateEmailOptions x <> Return tt) rest ->
                   on_present (fun x => Batch.validateEmailOptions x = Return tt) slot ->
                   exists pre item post e,
                     (slot :: rest = pre ++ Some item :: post)%list /\
                     Forall (on_present
                               (fun x => Batch.validateEmailOptions x = Return tt)) pre /\
                     Batch.validateEmailOptions item = Throw e).
  { intros Hrest Hslot.
    destruct (IH Hrest) as [pre [item [post [e [-> [Hpre Hitem]]]]]].
    exists (slot :: pre), item, post, e. repeat split; auto. }
  destruct slot as [ x | ].
  - destruct (validate_outcome x) as [ Hx | [e Hx] ].
    + inversion Hex as [ ? ? Hhead | ? ? Hrest ]; subst.
      * destruct Hhead as [y [Hy Hbad]]. injection Hy as Hy. subst y. contradiction.
      * now apply Hlater.
    + exists [], x, rest, e. repeat split; auto.
  - inversion Hex as [ ? ? Hhead | ? ? Hrest ]; subst.
    + destruct Hhead as [y [Hy _]]. discriminate.
    + now apply Hlater.
Qed.

(** X4. When an array of at most 100 slots holds an element that fails
    validation, batch send is rejected without any call of the transport,
    and the index in the message is that of the first such element: every
    element before it is valid, an empty slot before it was passed over
    and counts in the index, and the message ends with the validation
    message of that element. *)
Theorem Batch_send_reports_least_index `{Runtime} (this : Batch.t)
    (items : list (option JsValue)) (w : Trace) :
  length items <= 100 ->
  Exists (fun slot => exists x,
            slot = Some x /\ Batch.validateEmailOptions x <> Return tt) items ->
  exists pre item post e,
    items = (pre ++ Some item :: post)%list /\
    Forall (on_present (fun x => Batch.validateEmailOptions x = Return tt)) pre /\
    Batch.validateEmailOptions item = Throw e /\
    Batch.send this (JArray items) w =
    (Throw (Error ("JetEmail: email at index " ++ decimal (length pre)
                   ++ " is invalid - " ++ error_message e)), w).
Proof.
  intros Hlen Hex.
  destruct (first_invalid items Hex) as [pre [item [post [e [-> [Hpre Hitem]]]]]].
  exists pre, item, post, e. repeat split; try assumption.
  now apply Batch_send_first_throw.
Qed.

Lemma Batch_send_reports_least_index_witness :
  exists pre item post e,
    [Some hello; None; Some anonymous; Some no_subject] = (pre ++ Some item :: post)%list /\
    Forall (on_present (fun x => @Batch.validateEmailOptions offline x = Return tt)) pre /\
    @Batch.validateEmailOptions offline item = Throw e /\
    @Batch.send offline (@JetEmail.batch offline client)
      (JArray [Some hello; None; Some anonymous; Some no_subject]) [] =
    (Throw (Error ("JetEmail: email at index " ++ decimal (length pre)
                   ++ " is invalid - " ++ error_message e)), []).
Proof.
  apply (@Batch_send_reports_least_index offline (@JetEmail.batch offline client)
           [Some hello; None; Some anonymous; Some no_subject] []).
  - apply Nat.leb_le. reflexivity.
  - apply Exists_cons_tl, Exists_cons_tl, Exists_cons_hd.
    exists anonymous. split; [ reflexivity | discriminate ].
Defined.

(** X5. A batch of one item goes the way of single send's validation of
    that item: if it passes there, the batch reaches the dispatch routine
    with [/email-batch] and the item under [emails]; if it throws there,
    the batch is rejected with the same message after the prefix for
    index 0, and the transport is not called. *)
Theorem single_item_batch `{Runtime} (this : Batch.t) (options : JsValue) (w : Trace) :
  (Emails.validateEmailOptions options = Return tt ->
   Batch.send this (JArray (dense [options])) w =
   Batch.request this "/email-batch" (JObject [("emails", JArray (dense [options]))]) w) /\
  (forall e,
     Emails.validateEmailOptions options = Throw e ->
     Batch.send this (JArray (dense [options])) w =
     (Throw (Error ("JetEmail: email at index 0 is invalid - " ++ error_message e)), w)).
Proof.
  split.
  - intros Hv. apply Batch_send_all_pass_dense; [ simpl; lia | ]. now constructor.
  - intros e Hv.
    exact (Batch_send_first_throw_dense this [] options [] e w
             ltac:(simpl; lia) (Forall_nil _) Hv).
Qed.

Lemma single_item_batch_witness :
  @Batch.send offline (@JetEmail.batch offline client) (JArray (dense [no_content])) [] =
    (Throw (Error ("JetEmail: email at index 0 is invalid - " ++ content_required)), []) /\
  @Batch.send offline (@JetEmail.batch offline client) (JArray (dense [hello])) [] =
    @JetEmail.request offline client "/email-batch"
      (JObject [("emails", JArray (dense [hello]))]) [].
Proof.
  destruct (@single_item_batch offline (@JetEmail.batch offline client) no_content [])
    as [_ Hbad].
  destruct (@single_item_batch offline (@JetEmail.batch offline client) hello [])
    as [Hgood _].
  split; [ apply (Hbad (Error content_required)); reflexivity | ].
  apply Hgood. reflexivity.
Defined.

(** ** What reaches the transport *)

Lemma forEach_from_returns `{Runtime} (items : list (option JsValue)) (u : unit) :
  forall index,
  forEach_from Batch.validate_item items index = Return u ->
  Forall (on_present (fun x => Batch.validateEmailOptions x = Return tt)) items.
Proof.
  induction items as [ | [ x | ] rest IH ]; intros index; simpl; [ constructor | | ].
  - unfold Batch.validate_item at 1.
    destruct (Batch.validateEmailOptions x) as [ [] | e ] eqn:Hx; simpl;
      [ | discriminate ].
    intros Hrest. constructor; [ exact Hx | now apply (IH (S index)) ].
  - intros Hrest. constructor; [ exact I | now apply (IH (S index)) ].
Qed.

(** A call that moved the trace went through [fetch] once. *)
Lemma request_moved_trace `{Runtime} (this : JetEmail.t) (endpoint : string)
    (body : JsValue) (w w' : Trace) (res : Completion JsValue) :
  JetEmail.request this endpoint body w = (res, w') -> w' <> w ->
  exists credential,
    ToString (JetEmail.apiKey this) = Return credential /\
    w' = (w ++ [JetEmail.fetch_init this endpoint ("Bearer " ++ credential) body])%list.
Proof.
  intros Hreq Hmoved.
  destruct (ToString (JetEmail.apiKey this)) as [ credential | e ] eqn:Hcred.
  - exists credential. split; [ reflexivity | ].
    pose proof (request_reaches_fetch this endpoint body w credential Hcred) as Hsnd.
    now rewrite Hreq in Hsnd.
  - rewrite (request_without_credential this endpoint body w e Hcred) in Hreq.
    injection Hreq as _ <-. contradiction.
Qed.

(** X6. Single send never hands an invalid request to the transport: if a
    call of [send] on a client has added to the trace of [fetch] calls,
    the request had a truthy sender, recipient and subject and a truthy
    [html] or [text], and what was added is one POST of that request to
    the base address followed by [/email]. *)
Theorem Emails_send_transmits_only_valid `{Runtime} (this : JetEmail.t)
    (options : JsValue) (w w' : Trace) (res : Completion JsValue) :
  Emails.send (JetEmail.email this) options w = (res, w') -> w' <> w ->
  (nullish options = false /\
   truthy (property options "from") = true /\
   truthy (property options "to") = true /\
   truthy (property options "subject") = true /\
   truthy (property options "html") || truthy (property options "text") = true) /\
  exists credential,
    w' = app w [ {| url := JetEmail.baseUrl this ++ "/email";
                    method := "POST";
                    headers := [("Content-Type", "application/json");
                                ("Authorization", "Bearer " ++ credential)];
                    body := JSON_stringify options |} ].
Proof.
  rewrite send_after_validation.
  destruct (Emails.validateEmailOptions options) as [ u | e ] eqn:Hv.
  - intros Hreq Hmoved. split; [ exact (validate_passes_inv options u Hv) | ].
    destruct (request_moved_trace this "/email" options w w' res Hreq Hmoved)
      as [credential [_ ->]].
    now exists credential.
  - intros [= _ <-] Hmoved. contradiction.
Qed.

Lemma Emails_send_transmits_only_valid_witness :
  truthy (property hello "from") = true /\
  truthy (property hello "to") = true /\
  truthy (property hello "subject") = true.
Proof.
  destruct (@Emails_send_transmits_only_valid online client hello []
              (snd (@Emails.send online (@JetEmail.email online client) hello []))
              (fst (@Emails.send online (@JetEmail.email online client) hello []))
              eq_refl ltac:(discriminate)) as [[_ [Hf [Ht [Hs _]]]] _].
  repeat split; assumption.
Defined.

(** X7. Batch send hands the transport only what its checks let through:
    if a call of [send] on a client has added to the trace of [fetch]
    calls, its input was an array of 1 to 100 slots, every element
    present in it is valid (an empty slot is not checked), and what was
    added is one POST to the base address followed by [/email-batch],
    with the credential of the client after [Bearer] and the array under
    [emails]. *)
Theorem Batch_send_transmits_only_valid `{Runtime} (this : JetEmail.t)
    (emails : JsValue) (w w' : Trace) (res : Completion JsValue) :
  Batch.send (JetEmail.batch this) emails w = (res, w') -> w' <> w ->
  Array_isArray emails = true /\
  1 <= Array_length emails <= 100 /\
  Forall (on_present (fun x => Batch.validateEmailOptions x = Return tt))
    (Array_items emails) /\
  exists credential,
    ToString (JetEmail.apiKey this) = Return credential /\
    w' = app w [ {| url := JetEmail.baseUrl this ++ "/email-batch";
                    method := "POST";
                    headers := [("Content-Type", "application/json");
                                ("Authorization", "Bearer " ++ credential)];
                    body := JSON_stringify (JObject [("emails", emails)]) |} ].
Proof.
  rewrite Batch_send_steps.
  destruct (Array_isArray emails) eqn:Harray; simpl;
    [ | intros [= _ <-] Hmoved; contradiction ].
  destruct (Nat.eqb_spec (Array_length emails) 0) as [ Hzero | Hsome ];
    [ intros [= _ <-] Hmoved; contradiction | ].
  destruct (Nat.ltb_spec 100 (Array_length emails)) as [ Hbig | Hfits ];
    [ intros [= _ <-] Hmoved; contradiction | ].
  destruct (forEach Batch.validate_item (Array_items emails)) as [ u | e ] eqn:Hloop;
    [ | intros [= _ <-] Hmoved; contradiction ].
  intros Hreq Hmoved. split; [ reflexivity | ]. split; [ lia | ].
  split; [ exact (forEach_from_returns _ u 0 Hloop) | ].
  destruct (request_moved_trace this "/email-batch" _ w w' res Hreq Hmoved)
    as [credential [Hcred ->]].
  exists credential. split; [ exact Hcred | reflexivity ].
Qed.

Lemma Batch_send_transmits_only_valid_witness :
  let emails := JArray [Some hello; None; Some no_recipients] in
  Forall (on_present (fun x => @Batch.validateEmailOptions online x = Return tt))
    [Some hello; None; Some no_recipients] /\
  exists credential,
    @ToString online (JetEmail.apiKey client) = Return credential /\
    snd (@Batch.send online (@JetEmail.batch online client) emails []) =
    [ {| url := "https://api.jetemail.com/email-batch";
         method := "POST";
         headers := [("Content-Type", "application/json");
                     ("Authorization", "Bearer " ++ credential)];
         body := @JSON_stringify online (JObject [("emails", emails)]) |} ].
Proof.
  intros emails.
  destruct (@Batch_send_transmits_only_valid online client emails []
              (snd (@Batch.send online (@JetEmail.batch online client) emails []))
              (fst (@Batch.send online (@JetEmail.batch online client) emails []))
              eq_refl ltac:(discriminate)) as [_ [_ [Hall Hsent]]].
  split; [ exact Hall | exact Hsent ].
Defined.

(** X14. Batch send does not validate the empty slots of a sparse array:
    an array of 1 to 100 slots whose present elements are all valid goes
    to the dispatch routine as it is, empty slots included, and so does
    an array of 1 to 100 slots that are all empty. *)
Theorem Batch_send_passes_over_empty_slots `{Runtime} (this : Batch.t) (w : Trace) :
  (forall items,
     1 <= length items <= 100 ->
     Forall (on_present (fun x => Batch.validateEmailOptions x = Return tt)) items ->
     Batch.send this (JArray items) w =
     Batch.request this "/email-batch" (JObject [("emails", JArray items)]) w) /\
  (forall n,
     1 <= n <= 100 ->
     Batch.send this (JArray (repeat None n)) w =
     Batch.request this "/email-batch" (JObject [("emails", JArray (repeat None n))]) w).
Proof.
  split.
  - intros items Hlen Hall. rewrite Batch_send_sized by assumption. unfold forEach.
    rewrite forEach_from_passes; [ reflexivity | ]. now apply valid_slots_pass.
  - intros n Hn. apply Batch_send_all_pass.
    + now rewrite repeat_length.
    + apply Forall_forall. intros slot Hslot. apply repeat_spec in Hslot.
      subst slot. exact I.
Qed.

Lemma Batch_send_passes_over_empty_slots_witness :
  @Batch.send online (@JetEmail.batch online client)
    (JArray [Some hello; None; Some hello]) [] =
    @JetEmail.request online client "/email-batch"
      (JObject [("emails", JArray [Some hello; None; Some hello])]) [] /\
  @Batch.send online (@JetEmail.batch online client) (JArray (repeat None 5)) [] =
    @JetEmail.request online client "/email-batch"
      (JObject [("emails", JArray (repeat None 5))]) [].
Proof.
  destruct (@Batch_send_passes_over_empty_slots online (@JetEmail.batch online client) [])
    as [Hsparse Hempty].
  split.
  - apply Hsparse.
    + split; apply Nat.leb_le; reflexivity.
    + repeat constructor.
  - apply Hempty. split; apply Nat.leb_le; reflexivity.
Defined.

(** ** The transport fails *)

(** X8. When [fetch] rejects, a valid single send and a valid batch send
    of 1 to 100 items reject with the [TypeError] of the transport, its
    message unchanged, after exactly one call of [fetch]: the call is not
    repeated. *)
Theorem send_transport_failure `{Runtime} (this : JetEmail.t) (credential : string)
    (w : Trace) :
  ToString (JetEmail.apiKey this) = Return credential ->
  (forall options m,
     Emails.validateEmailOptions options = Return tt ->
     fetch (JetEmail.fetch_init this "/email" ("Bearer " ++ credential) options)
       = Rejects m ->
     Emails.send (JetEmail.email this) options w =
     (Throw (TypeError m),
      app w [JetEmail.fetch_init this "/email" ("Bearer " ++ credential) options])) /\
  (forall items m,
     1 <= length items <= 100 ->
     Forall (fun x => Batch.validateEmailOptions x = Return tt) items ->
     fetch (JetEmail.fetch_init this "/email-batch" ("Bearer " ++ credential)
              (JObject [("emails", JArray (dense items))])) = Rejects m ->
     Batch.send (JetEmail.batch this) (JArray (dense items)) w =
     (Throw (TypeError m),
      app w [JetEmail.fetch_init this "/email-batch" ("Bearer " ++ credential)
               (JObject [("emails", JArray (dense items))])])).
Proof.
  intros Hcred. split.
  - intros options m Hv Hfetch. rewrite send_after_validation, Hv.
    exact (request_transport_failure this "/email" options w credential Hcred m Hfetch).
  - intros items m Hlen Hall Hfetch. rewrite Batch_send_all_pass_dense by assumption.
    exact (request_transport_failure this "/email-batch" _ w credential Hcred m Hfetch).
Qed.

Lemma send_transport_failure_witness :
  @Emails.send offline (@JetEmail.email offline client) hello [] =
    (Throw (TypeError "fetch failed"),
     [@JetEmail.fetch_init offline client "/email" "Bearer key" hello]) /\
  @Batch.send offline (@JetEmail.batch offline client) (JArray (dense [hello])) [] =
    (Throw (TypeError "fetch failed"),
     [@JetEmail.fetch_init offline client "/email-batch" "Bearer key"
        (JObject [("emails", JArray (dense [hello]))])]).
Proof.
  destruct (@send_transport_failure offline client "key" [] eq_refl) as [Hone Hmany].
  split.
  - apply Hone; reflexivity.
  - apply Hmany.
    + split; apply Nat.leb_le; reflexivity.
    + repeat constructor.
    + reflexivity.
Defined.

(** ** Reading an outcome backwards *)

(** X9. The dispatch routine resolves only on success: if a call returns
    a value, the transport answered with a status from 200 to 299 and a
    body that decodes to that very value, after one call of [fetch]. *)
Theorem request_resolves_only_on_success `{Runtime} (this : JetEmail.t)
    (endpoint : string) (body : JsValue) (w w' : Trace) (data : JsValue) :
  JetEmail.request this endpoint body w = (Return data, w') ->
  exists credential r,
    ToString (JetEmail.apiKey this) = Return credential /\
    fetch (JetEmail.fetch_init this endpoint ("Bearer " ++ credential) body)
      = Responds r /\
    200 <= status r <= 299 /\
    json r = Some data /\
    w' = (w ++ [JetEmail.fetch_init this endpoint ("Bearer " ++ credential) body])%list.
Proof.
  destruct (ToString (JetEmail.apiKey this)) as [ credential | e ] eqn:Hcred.
  - destruct (fetch (JetEmail.fetch_init this endpoint ("Bearer " ++ credential) body))
      as [ m | r ] eqn:Hfetch.
    + rewrite (request_transport_failure this endpoint body w credential Hcred m Hfetch).
      discriminate.
    + intros Hreq. exists credential, r.
      destruct (json r) as [ decoded | ] eqn:Hjson.
      * destruct (ok r) eqn:Hok.
        -- rewrite (request_success this endpoint body w credential Hcred r Hfetch
                      decoded Hjson Hok) in Hreq.
           injection Hreq as -> <-. repeat split; try reflexivity;
             now apply ok_success in Hok.
        -- destruct (nullish decoded) eqn:Hnull.
           ++ rewrite (request_failure_null this endpoint body w credential Hcred r Hfetch
                         decoded Hjson Hok Hnull) in Hreq. discriminate.
           ++ rewrite (request_failure this endpoint body w credential Hcred r Hfetch
                         decoded Hjson Hok Hnull) in Hreq.
              destruct (ToString (best_message decoded)); discriminate.
      * rewrite (request_undecodable this endpoint body w credential Hcred r Hfetch Hjson)
          in Hreq. discriminate.
  - rewrite (request_without_credential this endpoint body w e Hcred). discriminate.
Qed.

Lemma request_resolves_only_on_success_witness :
  exists credential r,
    @ToString online (JetEmail.apiKey client) = Return credential /\
    @fetch online (@JetEmail.fetch_init online client "/email" ("Bearer " ++ credential) hello)
      = Responds r /\
    200 <= status r <= 299 /\
    json r = Some queued /\
    snd (@JetEmail.request online client "/email" hello []) =
    ([] ++ [@JetEmail.fetch_init online client "/email" ("Bearer " ++ credential) hello])%list.
Proof.
  exact (@request_resolves_only_on_success online client "/email" hello []
           (snd (@JetEmail.request online client "/email" hello [])) queued eq_refl).
Defined.

(** X10. An API error tells how the response went: when the dispatch
    routine throws one, its status is that of the response, and either the
    body could not be decoded, the error has no response body and its
    message is [Request failed with status] followed by the status, or the
    status is outside 200 to 299 and the error carries the decoded body,
    which is not [null], with the string form of its best message. *)
Theorem request_api_error_origin `{Runtime} (this : JetEmail.t) (endpoint : string)
    (body : JsValue) (w w' : Trace) (m : string) (code : nat) (response : JsValue) :
  JetEmail.request this endpoint body w = (Throw (JetEmailError m code response), w') ->
  exists credential r,
    ToString (JetEmail.apiKey this) = Return credential /\
    fetch (JetEmail.fetch_init this endpoint ("Bearer " ++ credential) body)
      = Responds r /\
    code = status r /\
    ((json r = None /\ response = JUndefined /\
      m = "Request failed with status " ++ decimal (status r)) \/
     (json r = Some response /\ (status r < 200 \/ 299 < status r) /\
      nullish response = false /\
      ToString (best_message response) = Return m)).
Proof.
  destruct (ToString (JetEmail.apiKey this)) as [ credential | e ] eqn:Hcred.
  - destruct (fetch (JetEmail.fetch_init this endpoint ("Bearer " ++ credential) body))
      as [ m' | r ] eqn:Hfetch.
    + rewrite (request_transport_failure this endpoint body w credential Hcred m' Hfetch).
      discriminate.
    + intros Hreq. exists credential, r. split; [ reflexivity | ].
      split; [ exact Hfetch | ].
      destruct (json r) as [ decoded | ] eqn:Hjson.
      * destruct (ok r) eqn:Hok.
        -- rewrite (request_success this endpoint body w credential Hcred r Hfetch
                      decoded Hjson Hok) in Hreq. discriminate.
        -- destruct (nullish decoded) eqn:Hnull.
           ++ rewrite (request_failure_null this endpoint body w credential Hcred r Hfetch
                         decoded Hjson Hok Hnull) in Hreq. discriminate.
           ++ rewrite (request_failure this endpoint body w credential Hcred r Hfetch
                         decoded Hjson Hok Hnull) in Hreq.
              destruct (ToString (best_message decoded)) as [ text | e ] eqn:Htext.
              ** injection Hreq as <- <- <- _. split; [ reflexivity | ]. right.
                 repeat split; try assumption. now apply ok_failure.
              ** rewrite (ToString_throws _ _ Htext) in Hreq. discriminate.
      * rewrite (request_undecodable this endpoint body w credential Hcred r Hfetch Hjson)
          in Hreq.
        injection Hreq as <- <- <- _. split; [ reflexivity | ]. left. repeat split.
  - rewrite (request_without_credential this endpoint body w e Hcred).
    rewrite (ToString_throws _ _ Hcred). discriminate.
Qed.

Lemma request_api_error_origin_witness :
  let data := JObject [("error", JString "quota exceeded")] in
  let R := mock (Responds {| status := 429; json := Some data |}) in
  exists credential r,
    @ToString R (JetEmail.apiKey client) = Return credential /\
    @fetch R (@JetEmail.fetch_init R client "/email" ("Bearer " ++ credential) hello)
      = Responds r /\
    429 = status r /\
    ((json r = None /\ data = JUndefined /\
      "quota exceeded" = "Request failed with status " ++ decimal (status r)) \/
     (json r = Some data /\ (status r < 200 \/ 299 < status r) /\
      nullish data = false /\
      @ToString R (best_message data) = Return "quota exceeded")).
Proof.
  intros data R.
  exact (@request_api_error_origin R client "/email" hello []
           (snd (@JetEmail.request R client "/email" hello []))
           "quota exceeded" 429 data eq_refl).
Defined.

(** ** The constructor, and a client at work *)

Lemma has_property_object (v : JsValue) (name : string) (x : JsValue) :
  property v name = x -> x <> JUndefined ->
  nullish v = false /\ typeof_string v = false.
Proof. destruct v; simpl; intros; subst; try contradiction; auto. Qed.

Lemma truthy_not_undefined (x : JsValue) : truthy x = true -> x <> JUndefined.
Proof. intros Ht ->. discriminate. Qed.

(** X11. The constructor throws the engine's [TypeError], and not its own
    [apiKey is required] error, in two cases: when its argument is
    [undefined] or [null], and when the configuration record has a
    credential but a base address that is neither a string nor [undefined]
    nor [null]. *)
Theorem constructor_type_errors `{Runtime} :
  (forall v,
     nullish v = true ->
     JetEmail.constructor v = Throw (TypeError (faultMessage (ReadOfNullish v "apiKey")))) /\
  (forall config,
     truthy (property config "apiKey") = true ->
     nullish (property config "baseUrl") = false ->
     typeof_string (property config "baseUrl") = false ->
     JetEmail.constructor config =
     Throw (TypeError (faultMessage (NotAFunction "config.baseUrl?.replace")))).
Proof.
  split.
  - intros v Hnull. unfold JetEmail.constructor.
    assert (Hstr : typeof_string v = false) by now destruct v.
    rewrite Hstr. now rewrite (getProp_nullish v "apiKey") by assumption.
  - intros config Hkey Hbase Hstring.
    destruct (has_property_object config "apiKey" _ eq_refl (truthy_not_undefined _ Hkey))
      as [Hobj Hrecord].
    unfold JetEmail.constructor. rewrite Hrecord.
    rewrite !getProp_present by assumption. simpl. rewrite Hkey. simpl.
    now destruct (property config "baseUrl").
Qed.

Lemma constructor_type_errors_witness :
  @JetEmail.constructor offline JUndefined =
    Throw (TypeError "Cannot read properties of undefined (reading 'apiKey')") /\
  @JetEmail.constructor offline misconfigured =
    Throw (TypeError "config.baseUrl?.replace is not a function").
Proof.
  destruct (@constructor_type_errors offline) as [Hnone Hbase].
  split; [ apply (Hnone JUndefined); reflexivity | ].
  apply (Hbase misconfigured); reflexivity.
Defined.

Lemma send_valid_reaches_fetch `{Runtime} (this : JetEmail.t) (options : JsValue)
    (w : Trace) (credential : string) :
  ToString (JetEmail.apiKey this) = Return credential ->
  Emails.validateEmailOptions options = Return tt ->
  snd (Emails.send (JetEmail.email this) options w) =
  (w ++ [JetEmail.fetch_init this "/email" ("Bearer " ++ credential) options])%list.
Proof.
  intros Hcred Hv. rewrite send_after_validation, Hv.
  exact (request_reaches_fetch this "/email" options w credential Hcred).
Qed.

(** X12. A client made from a bare, non-empty credential string sends a
    valid request in one POST to [https://api.jetemail.com/email], with
    that string after [Bearer] in the [Authorization] header and the
    serialized request as body. *)
Theorem constructed_client_sends `{Runtime} (key : string) (options : JsValue)
    (w : Trace) :
  key <> EmptyString ->
  Emails.validateEmailOptions options = Return tt ->
  exists this,
    JetEmail.constructor (JString key) = Return this /\
    snd (Emails.send (JetEmail.email this) options w) =
    app w [ {| url := "https://api.jetemail.com/email";
               method := "POST";
               headers := [("Content-Type", "application/json");
                           ("Authorization", "Bearer " ++ key)];
               body := JSON_stringify options |} ].
Proof.
  intros Hkey Hv.
  pose (this := {| JetEmail.apiKey := JString key;
                   JetEmail.baseUrl := JetEmail.DEFAULT_BASE_URL |}).
  exists this. split.
  - unfold JetEmail.constructor, getProp. simpl.
    destruct (String.eqb_spec key EmptyString) as [ E | _ ]; [ contradiction | ].
    reflexivity.
  - now rewrite (send_valid_reaches_fetch this options w key eq_refl Hv).
Qed.

Lemma constructed_client_sends_witness :
  exists this,
    @JetEmail.constructor online (JString "key") = Return this /\
    snd (@Emails.send online (@JetEmail.email online this) hello []) =
    [ {| url := "https://api.jetemail.com/email";
         method := "POST";
         headers := [("Content-Type", "application/json");
                     ("Authorization", "Bearer key")];
         body := @JSON_stringify online hello |} ].
Proof.
  apply (@constructed_client_sends online "key" hello []);
    [ discriminate | reflexivity ].
Defined.

(** X13. A base address given with a trailing slash does not double the
    slash in the address of a request: a client made from a record whose
    [baseUrl] is [base] followed by [/] stores [base], and sends a valid
    request to [base] followed by [/email], and a valid batch to [base]
    followed by [/email-batch]. *)
Theorem override_slash_not_doubled `{Runtime} (config : JsValue) (key base : string)
    (w : Trace) :
  property config "apiKey" = JString key -> key <> EmptyString ->
  property config "baseUrl" = JString (base ++ "/") ->
  exists this,
    JetEmail.constructor config = Return this /\
    JetEmail.baseUrl this = base /\
    (forall options,
       Emails.validateEmailOptions options = Return tt ->
       exists req,
         snd (Emails.send (JetEmail.email this) options w) = app w [req] /\
         url req = base ++ "/email") /\
    (forall items,
       1 <= length items <= 100 ->
       Forall (fun x => Batch.validateEmailOptions x = Return tt) items ->
       exists req,
         snd (Batch.send (JetEmail.batch this) (JArray (dense items)) w) = app w [req] /\
         url req = base ++ "/email-batch").
Proof.
  intros Hkey Hne Hbase.
  destruct (has_property_object config "apiKey" _ Hkey ltac:(discriminate))
    as [Hobj Hrecord].
  assert (Htruthy : truthy (JString key) = true).
  { destruct (truthy (JString key)) eqn:E; [ reflexivity | ].
    now apply truthy_string in E. }
  pose (this := {| JetEmail.apiKey := JString key; JetEmail.baseUrl := base |}).
  exists this. split; [ | split; [ reflexivity | split ] ].
  - unfold JetEmail.constructor. rewrite Hrecord.
    rewrite !getProp_present by assumption. rewrite Hkey, Hbase. cbn [bindC].
    rewrite Htruthy. cbn [negb bindC]. now rewrite replace_trailing_slash_strips.
  - intros options Hv. eexists. split.
    + exact (send_valid_reaches_fetch this options w key eq_refl Hv).
    + reflexivity.
  - intros items Hlen Hall. eexists. split.
    + rewrite Batch_send_all_pass_dense by assumption.
      exact (request_reaches_fetch this "/email-batch" _ w key eq_refl).
    + reflexivity.
Qed.

Lemma override_slash_not_doubled_witness :
  exists this,
    @JetEmail.constructor online regional = Return this /\
    JetEmail.baseUrl this = "https://eu.example.com" /\
    exists req,
      snd (@Emails.send online (@JetEmail.email online this) hello []) = [req] /\
      url req = "https://eu.example.com/email".
Proof.
  destruct (@override_slash_not_doubled online regional "key" "https://eu.example.com" []
              eq_refl ltac:(discriminate) eq_refl)
    as [this [Hnew [Hbase [Hone _]]]].
  exists this. split; [ exact Hnew | ]. split; [ exact Hbase | ].
  apply Hone. reflexivity.
Defined.
